(** * go-udp-testing: the UDP collector and its assertions

    A shallow embedding of [udp.go].  The package keeps four package-level
    variables ([addr], [listener], [Timeout], [logBuf]); every exported
    function mutates them, talks to one UDP socket and reports through a
    [TestingT].  The embedding threads all of that through one [World]
    record and a small state monad whose outcomes distinguish a normal
    return from [runtime.Goexit] (what [t.Fatal] does) and from a panic,
    so that [defer] can be modelled as Go runs it. *)

From Stdlib Require Import ZArith List String Ascii Bool Lia DecimalString.
Import ListNotations.

Local Open Scope string_scope.
Local Open Scope Z_scope.

(** ** Go strings and byte slices *)

(** A Go [string] is a sequence of bytes, and so is [string] here; a
    [[]byte] is a list of the same bytes. *)
Definition byte := ascii.

Module strings.

(** [strings.HasPrefix(s, prefix)] *)
Fixpoint HasPrefix (s prefix : string) : bool :=
  match prefix, s with
  | EmptyString, _ => true
  | String _ _, EmptyString => false
  | String a prefix', String b s' => Ascii.eqb a b && HasPrefix s' prefix'
  end.

(** [strings.Index(s, substr)]: the offset of the first instance of
    [substr] in [s], or [-1]. *)
Fixpoint Index (s substr : string) : Z :=
  if HasPrefix s substr then 0
  else match s with
       | EmptyString => -1
       | String _ s' =>
           let i := Index s' substr in
           if i <? 0 then -1 else i + 1
       end.

(** [strings.Contains(s, substr)] is [Index(s, substr) >= 0]. *)
Definition Contains (s substr : string) : bool := Index s substr >=? 0.

(** [strings.Join(elems, sep)] *)
Fixpoint Join (elems : list string) (sep : string) : string :=
  match elems with
  | [] => ""
  | [e] => e
  | e :: rest => e ++ sep ++ Join rest sep
  end.

End strings.

(** ** The fragment of [fmt] that the package reaches

    [errorF] hands [fmt.Sprintf] operands of four dynamic kinds: a string,
    an [int] (the line number of [runtime.Caller]), an [error] (from
    [ReadFrom]) and a [[]interface{}] holding such values. *)
#[warnings="-register-all"]
Inductive value : Type :=
| VString (s : string)
| VInt (n : Z)
| VError (msg : string)
| VSlice (elems : list value).

Section Fmt.

(** [strconv.Quote], which [%#v] applies to a string operand.  Its escaping
    of non-ASCII text depends on the Unicode tables, so it stays a
    parameter of the development; [QuoteASCII] below instantiates it. *)
Variable Quote : string -> string.

Definition itoa (n : Z) : string := NilZero.string_of_int (Z.to_int n).

(** The operand's type as [reflect] prints it. *)
Definition typeString (v : value) : string :=
  match v with
  | VString _ => "string"
  | VInt _ => "int"
  | VError _ => "error"
  | VSlice _ => "[]interface {}"
  end.

(** [%!verb(type=value)] for a verb the operand's kind does not accept. *)
Definition badVerb (verb : ascii) (ty plain : string) : string :=
  "%!" ++ String verb ("(" ++ ty ++ "=" ++ plain ++ ")").

(** [printArg] / [printValue] of [fmt]'s printer for one operand under [verb];
    [sharpV] is set for [%#v].  A slice is printed element by element
    under the same verb: Go syntax with the type name and [", "] between
    elements for [%#v], brackets and spaces otherwise.  An [error]
    operand is within the fragment for [%v] and [%s], where
    [handleMethods] prints [Error()]. *)
Fixpoint printValue (verb : ascii) (sharpV : bool) (v : value) : string :=
  match v with
  | VString s =>
      if Ascii.eqb verb "v" then (if sharpV then Quote s else s)
      else if Ascii.eqb verb "s" then s
      else badVerb verb "string" s
  | VInt n =>
      if Ascii.eqb verb "v" || Ascii.eqb verb "d" then itoa n
      else badVerb verb "int" (itoa n)
  | VError msg =>
      if (Ascii.eqb verb "v" && negb sharpV) || Ascii.eqb verb "s" then msg
      else badVerb verb "error" msg
  | VSlice elems =>
      let fix printElems (sep : string) (l : list value) : string :=
        match l with
        | [] => ""
        | [e] => printValue verb sharpV e
        | e :: rest => printValue verb sharpV e ++ sep ++ printElems sep rest
        end in
      if sharpV then "[]interface {}{" ++ printElems ", " elems ++ "}"
      else "[" ++ printElems " " elems ++ "]"
  end.

(** Operands left over once the format is exhausted:
    [%!(EXTRA type=value, ...)]. *)
Fixpoint extraArgs (a : list value) : string :=
  match a with
  | [] => ""
  | [v] => typeString v ++ "=" ++ printValue "v" false v
  | v :: rest => typeString v ++ "=" ++ printValue "v" false v ++ ", " ++ extraArgs rest
  end.

(** [fmt.Sprintf(format, a...)] for the verbs [%v], [%#v], [%s], [%d] and
    [%%].  A verb with no operand left prints [%!verb(MISSING)]. *)
Fixpoint Sprintf (format : string) (a : list value) : string :=
  match format with
  | EmptyString =>
      match a with
      | [] => ""
      | _ => "%!(EXTRA " ++ extraArgs a ++ ")"
      end
  | String "%" EmptyString | String "%" (String "#" EmptyString) => "%!(NOVERB)"
  | String "%" (String "%" rest) => String "%" (Sprintf rest a)
  | String "%" (String "#" (String verb rest)) =>
      match a with
      | [] => "%!" ++ String verb ("(MISSING)" ++ Sprintf rest [])
      | v :: a' => printValue verb (Ascii.eqb verb "v") v ++ Sprintf rest a'
      end
  | String "%" (String verb rest) =>
      match a with
      | [] => "%!" ++ String verb ("(MISSING)" ++ Sprintf rest [])
      | v :: a' => printValue verb false v ++ Sprintf rest a'
      end
  | String c rest => String c (Sprintf rest a)
  end.

End Fmt.

(** ** The world the package runs in *)

(** A datagram queued on, or in flight to, a socket. *)
Record packet := { arrival : Z; payload : list byte }.

(** [*net.UDPConn]: the bound address, the read deadline last set, whether
    [Close] has run, and the socket's own receive queue in arrival order. *)
Record UDPConn := {
  laddr : string;
  deadline : option Z;
  closed : bool;
  queue : list packet
}.

(** What the socket layer and the test body were seen to do.  A read is
    logged with the length of the slice it was given, the count it
    returned and its error. *)
Inductive event :=
| EvListen (a : string)
| EvBody
| EvRead (room n : Z) (err : option string)
| EvClose.

(** [TestingT]: the calls the reporter [t] received, with their arguments. *)
Inductive report :=
| Errorf (format : string) (args : list value)
| Error (args : list value)
| Fatal (args : list value).

(** The four package variables, then the surroundings: the clock read by
    [time.Now] (nanoseconds, as [time.Duration] counts), the addresses on
    which [net.ListenUDP] would fail, the resolver behind
    [net.ResolveUDPAddr] (resolved address or error text), the frame that
    [runtime.Caller(2)] finds from inside [printLocation], the socket
    events so far and the reporter. *)
Record World := {
  addr : option string;
  listener : option UDPConn;
  logBuf : list string; Timeout : Z;
  now : Z;
  busy : list string;
  resolve : string -> string + string;
  caller : string * Z;
  trace : list event;
  reports : list report
}.

Definition set_addr (v : option string) (w : World) : World :=
  {| addr := v; listener := listener w; logBuf := logBuf w; Timeout := Timeout w;
     now := now w; busy := busy w; resolve := resolve w; caller := caller w;
     trace := trace w; reports := reports w |}.

Definition set_listener (v : option UDPConn) (w : World) : World :=
  {| addr := addr w; listener := v; logBuf := logBuf w; Timeout := Timeout w;
     now := now w; busy := busy w; resolve := resolve w; caller := caller w;
     trace := trace w; reports := reports w |}.

Definition set_logBuf (v : list string) (w : World) : World :=
  {| addr := addr w; listener := listener w; logBuf := v; Timeout := Timeout w;
     now := now w; busy := busy w; resolve := resolve w; caller := caller w;
     trace := trace w; reports := reports w |}.

Definition set_Timeout (v : Z) (w : World) : World :=
  {| addr := addr w; listener := listener w; logBuf := logBuf w; Timeout := v;
     now := now w; busy := busy w; resolve := resolve w; caller := caller w;
     trace := trace w; reports := reports w |}.

Definition set_now (v : Z) (w : World) : World :=
  {| addr := addr w; listener := listener w; logBuf := logBuf w; Timeout := Timeout w;
     now := v; busy := busy w; resolve := resolve w; caller := caller w;
     trace := trace w; reports := reports w |}.

Definition set_busy (v : list string) (w : World) : World :=
  {| addr := addr w; listener := listener w; logBuf := logBuf w; Timeout := Timeout w;
     now := now w; busy := v; resolve := resolve w; caller := caller w;
     trace := trace w; reports := reports w |}.

Definition set_trace (v : list event) (w : World) : World :=
  {| addr := addr w; listener := listener w; logBuf := logBuf w; Timeout := Timeout w;
     now := now w; busy := busy w; resolve := resolve w; caller := caller w;
     trace := v; reports := reports w |}.

Definition set_reports (v : list report) (w : World) : World :=
  {| addr := addr w; listener := listener w; logBuf := logBuf w; Timeout := Timeout w;
     now := now w; busy := busy w; resolve := resolve w; caller := caller w;
     trace := trace w; reports := v |}.

(** ** Control: return, [runtime.Goexit], panic *)

(** How a call ends.  [t.Fatal] of [*testing.T] ends the goroutine with
    [runtime.Goexit]; a nil dereference panics.  Both unwind through the
    deferred calls.  [Hang] is a call that never returns: a read with no
    deadline on an empty queue, or a loop that outlives its fuel;
    [getMessage_returns] shows that a collection cycle never hangs. *)
Inductive outcome (A : Type) :=
| Ok (a : A)
| Goexit
| Panic (msg : string)
| Hang.
Arguments Ok {A} a.
Arguments Goexit {A}.
Arguments Panic {A} msg.
Arguments Hang {A}.

Definition M (A : Type) : Type := World -> outcome A * World.

Definition ret {A} (a : A) : M A := fun w => (Ok a, w).

Definition bind {A B} (m : M A) (k : A -> M B) : M B :=
  fun w =>
    match m w with
    | (Ok a, w') => k a w'
    | (Goexit, w') => (Goexit, w')
    | (Panic msg, w') => (Panic msg, w')
    | (Hang, w') => (Hang, w')
    end.

Notation "x <- m ;; k" := (bind m (fun x => k))
  (at level 61, m at next level, right associativity).
Notation "' p <- m ;; k" := (bind m (fun x => let p := x in k))
  (at level 61, p pattern, m at next level, right associativity).
Notation "m ;; k" := (bind m (fun _ => k))
  (at level 61, right associativity).

Definition gets {A} (f : World -> A) : M A := fun w => (Ok (f w), w).
Definition modify (f : World -> World) : M unit := fun w => (Ok tt, f w).
Definition goexit {A} : M A := fun w => (Goexit, w).
Definition panic {A} (msg : string) : M A := fun w => (Panic msg, w).

(** [defer deferred; body]: the deferred call runs when [body] returns,
    exits or panics, and the unwinding goes on afterwards. *)
Definition defer {A} (deferred : M unit) (body : M A) : M A :=
  fun w =>
    match body w with
    | (Hang, w') => (Hang, w')
    | (r, w') =>
        match deferred w' with
        | (Ok _, w'') => (r, w'')
        | (Goexit, w'') => (match r with Panic msg => Panic msg | _ => Goexit end, w'')
        | (Panic msg, w'') => (Panic msg, w'')
        | (Hang, w'') => (Hang, w'')
        end
    end.

(** ** The package *)

Definition nl : string := String "010"%char EmptyString.

(** [time.Millisecond], in nanoseconds. *)
Definition Millisecond : Z := 1000000.

(** [1024*32], the capacity of the capture buffer. *)
Definition bufSize : Z := 1024 * 32.

(** [type fn func()]: a test body, seen from the socket.  It hands the
    listener its datagrams, in arrival order and each [delay] after the
    body was entered, and returns after [elapsed]. *)
Record datagram := { delay : Z; data : list byte }.
Record fn := { sends : list datagram; elapsed : Z }.

Section udp.

Variable Quote : string -> string.

(** *** The reporter *)

Definition t_Error (args : list value) : M unit :=
  modify (fun w => set_reports (reports w ++ [Error args])%list w).

Definition t_Fatal {A} (args : list value) : M A :=
  modify (fun w => set_reports (reports w ++ [Fatal args])%list w) ;; goexit.

(** *** [net], [time] and [runtime] *)

Definition ResolveUDPAddr (a : string) : M (string + string) :=
  gets (fun w => resolve w a).

(** A fresh socket on success; the address stays busy until [Close]. *)
Definition ListenUDP (resAddr : string) : M (option UDPConn * option string) :=
  fun w =>
    if existsb (String.eqb resAddr) (busy w) then
      (Ok (None, Some ("listen udp " ++ resAddr ++ ": bind: address already in use")), w)
    else
      (Ok (Some {| laddr := resAddr; deadline := None; closed := false; queue := [] |},
           None),
       set_trace (trace w ++ [EvListen resAddr])%list (set_busy (resAddr :: busy w) w)).

(** [listener.Close()]: a nil or closed connection answers with an error;
    otherwise the queue is dropped and the address is free again. *)
Definition Close : M (option string) :=
  fun w =>
    match listener w with
    | None => (Ok (Some "invalid argument"), w)
    | Some c =>
        if closed c then
          (Ok (Some ("close udp " ++ laddr c ++ ": use of closed network connection")), w)
        else
          (Ok None,
           set_trace (trace w ++ [EvClose])%list
             (set_busy (remove string_dec (laddr c) (busy w))
                (set_listener
                   (Some {| laddr := laddr c; deadline := deadline c;
                            closed := true; queue := [] |}) w)))
    end.

Definition Now : M Z := gets now.

(** [listener.SetReadDeadline(d)]; the package drops the error. *)
Definition SetReadDeadline (d : Z) : M unit :=
  modify (fun w =>
    match listener w with
    | Some c =>
        if closed c then w
        else set_listener
               (Some {| laddr := laddr c; deadline := Some d;
                        closed := closed c; queue := queue c |}) w
    | None => w
    end).

Definition timeoutError (c : UDPConn) : string :=
  "read udp " ++ laddr c ++ ": i/o timeout".

(** One datagram copied into [p], cut to [len(p)]. *)
Definition copyInto (p payload : list byte) : list byte :=
  (firstn (List.length p) payload ++ skipn (List.length payload) p)%list.

(** [listener.ReadFrom(p)]: the count, the error, and [p] as the call
    leaves it.  The head of the queue is delivered when it is there before
    the deadline, and the clock moves to its arrival; otherwise the read
    gives up at the deadline with zero bytes and a timeout error.  A
    deadline that has already passed fails at once. *)
Definition ReadFrom (p : list byte) : M (Z * option string * list byte) :=
  fun w =>
    match listener w with
    | None => (Ok (0, Some "invalid argument", p), w)
    | Some c =>
        if closed c then
          (Ok (0, Some ("read udp " ++ laddr c ++ ": use of closed network connection"), p), w)
        else
          let room := Z.of_nat (List.length p) in
          let giveUp (at_ : Z) :=
            (Ok (0, Some (timeoutError c), p),
             set_trace (trace w ++ [EvRead room 0 (Some (timeoutError c))])%list (set_now (Z.max (now w) at_) w)) in
          let deliver (pk : packet) (rest : list packet) :=
            let n := Z.min (Z.of_nat (List.length (payload pk))) room in
            (Ok (n, None, copyInto p (payload pk)),
             set_trace (trace w ++ [EvRead room n None])%list
               (set_now (Z.max (now w) (arrival pk))
                  (set_listener
                     (Some {| laddr := laddr c; deadline := deadline c;
                              closed := closed c; queue := rest |}) w))) in
          match deadline c, queue c with
          | Some d, pk :: rest =>
              if d <=? now w then giveUp (now w)
              else if arrival pk <? d then deliver pk rest
              else giveUp d
          | Some d, [] => giveUp d
          | None, pk :: rest => deliver pk rest
          | None, [] => (Hang, w)
          end
    end.

(** Calling the body: its datagrams join the queue of the open listener
    (with no socket bound they are lost) and the clock moves on. *)
Definition call (body : fn) : M unit :=
  fun w =>
    let stamp d := {| arrival := now w + delay d; payload := data d |} in
    let w1 :=
      match listener w with
      | Some c =>
          if closed c then w
          else set_listener
                 (Some {| laddr := laddr c; deadline := deadline c; closed := closed c;
                          queue := (queue c ++ map stamp (sends body))%list |}) w
      | None => w
      end in
    (Ok tt, set_trace (trace w1 ++ [EvBody])%list (set_now (now w + elapsed body) w1)).

(** *** The failure log *)

Definition resetLogBuf : M unit := modify (set_logBuf []).

(** [args] reaches [fmt.Sprintf] as one operand, the slice itself: the
    call is [fmt.Sprintf(format, args)], not [args...]. *)
Definition errorF (format : string) (args : list value) : M unit :=
  modify (fun w => set_logBuf (logBuf w ++ [Sprintf Quote format [VSlice args]])%list w).

Definition emitLog : M unit :=
  buf <- gets logBuf ;;
  if (Z.of_nat (List.length buf) >? 0) then
    t_Error [VString (strings.Join buf nl)] ;;
    resetLogBuf
  else ret tt.

(** *** Configuration *)

Definition SetAddr (a : string) : M unit := modify (set_addr (Some a)).

(** The assignment [udp.Timeout = d] made by a caller. *)
Definition SetTimeout (d : Z) : M unit := modify (set_Timeout d).

(** *** The collector *)

Definition start : M unit :=
  a <- gets addr ;;
  match a with
  | None => panic "invalid memory address or nil pointer dereference"
  | Some a =>
      r <- ResolveUDPAddr a ;;
      match r with
      | inr err => t_Fatal [VError err]
      | inl resAddr =>
          ' (conn, err) <- ListenUDP resAddr ;;
          modify (set_listener conn) ;;
          match err with
          | Some err => t_Fatal [VError err]
          | None => ret tt
          end
      end
  end.

Definition stop : M unit :=
  err <- Close ;;
  match err with
  | Some err => t_Fatal [VError err]
  | None => ret tt
  end.

(** The [for] loop of [getMessage].  Every round that goes on has read at
    least one byte, so [fuel] counts rounds. *)
Fixpoint readLoop (fuel : nat) (expectData : bool) (message : list byte) (bufLen : Z)
  : M (list byte * Z) :=
  match fuel with
  | O => fun w => (Hang, w)
  | S fuel' =>
      tm <- Now ;;
      d <- gets Timeout ;;
      SetReadDeadline (tm + d) ;;
      if (bufLen <? 0) || (bufLen >? Z.of_nat (List.length message)) then
        panic "slice bounds out of range"
      else
        ' (n, err, p) <- ReadFrom (skipn (Z.to_nat bufLen) message) ;;
        let message := (firstn (Z.to_nat bufLen) message ++ p)%list in
        if n =? 0 then
          match err with
          | Some err =>
              if (bufLen =? 0) && expectData then
                errorF "Error reading udp data: %v" [VError err]
              else ret tt
          | None => ret tt
          end ;;
          ret (message, bufLen)
        else readLoop fuel' expectData message (bufLen + n)
  end.

Definition getMessage (body : fn) (expectData : bool) : M string :=
  start ;;
  defer stop
    (call body ;;
     let message := repeat Ascii.zero (Z.to_nat bufSize) in
     ' (message, bufLen) <- readLoop (S (Z.to_nat bufSize)) expectData message 0 ;;
     if (bufLen <? 0) || (bufLen >? Z.of_nat (List.length message)) then
       panic "slice bounds out of range"
     else ret (string_of_list_ascii (firstn (Z.to_nat bufLen) message))).

Definition get (match_ : string) (body : fn) (expectData : bool)
  : M (string * bool * bool) :=
  got <- getMessage body expectData ;;
  let equals := String.eqb got match_ in
  let contains := strings.Contains got match_ in
  ret (got, equals, contains).

Definition printLocation : M unit :=
  ' (file, line) <- gets caller ;;
  errorF "At: %s:%d" [VString file; VInt line].

(** *** The assertions *)

(** [for _, str := range l { ... }], threading the variables the loop
    body assigns. *)
Fixpoint forRange {S : Type} (l : list string) (body : string -> S -> M S) (s : S) : M S :=
  match l with
  | [] => ret s
  | str :: rest => s' <- body str s ;; forRange rest body s'
  end.

Definition ShouldReceiveOnly (expected : string) (body : fn) : M unit :=
  defer emitLog
    (' (got, equals, _) <- get expected body true ;;
     if negb equals then
       printLocation ;;
       errorF "Expected: %#v" [VString expected] ;;
       errorF "But got: %#v" [VString got]
     else ret tt).

Definition ShouldNotReceiveOnly (notExpected : string) (body : fn) : M unit :=
  defer emitLog
    (' (_, equals, _) <- get notExpected body false ;;
     if equals then
       printLocation ;;
       errorF "Expected not to get: %#v" [VString notExpected]
     else ret tt).

Definition ShouldReceive (expected : string) (body : fn) : M unit :=
  defer emitLog
    (' (got, _, contains) <- get expected body false ;;
     if negb contains then
       printLocation ;;
       errorF "Expected: %#v" [VString expected] ;;
       errorF "But got: %#v" [VString got]
     else ret tt).

Definition ShouldNotReceive (expected : string) (body : fn) : M unit :=
  defer emitLog
    (' (got, _, contains) <- get expected body false ;;
     if contains then
       printLocation ;;
       errorF "Expected not to find: %#v" [VString expected] ;;
       errorF "But got: %#v" [VString got]
     else ret tt).

Definition ShouldReceiveNothing (body : fn) : M unit :=
  defer emitLog
    (' (got, _, _) <- get "" body false ;;
     if Z.of_nat (String.length got) >? 0 then
       printLocation ;;
       errorF "Expected no data, but got: %#v" [VString got]
     else ret tt).

(** The body of the loop over [expected]. *)
Definition wantFound (got str : string) (failed : bool) : M bool :=
  if negb (strings.Contains got str) then
    failed <- (if negb failed then printLocation ;; ret true else ret failed) ;;
    errorF "Expected to find: %#v" [VString str] ;;
    ret failed
  else ret failed.

(** The body of the loop over [unexpected]. *)
Definition wantAbsent (got str : string) (failed : bool) : M bool :=
  if strings.Contains got str then
    failed <- (if negb failed then printLocation ;; ret true else ret failed) ;;
    errorF "Expected not to find: %#v" [VString str] ;;
    ret failed
  else ret failed.

Definition ShouldReceiveAll (expected : list string) (body : fn) : M unit :=
  defer emitLog
    (got <- getMessage body true ;;
     failed <- forRange expected (wantFound got) false ;;
     if failed then errorF "But got: %#v" [VString got] else ret tt).

Definition ShouldNotReceiveAny (unexpected : list string) (body : fn) : M unit :=
  defer emitLog
    (got <- getMessage body false ;;
     failed <- forRange unexpected (wantAbsent got) false ;;
     if failed then errorF "But got: %#v" [VString got] else ret tt).

Definition ShouldReceiveAllAndNotReceiveAny (expected unexpected : list string) (body : fn)
  : M unit :=
  defer emitLog
    (got <- getMessage body true ;;
     failed <- forRange expected (wantFound got) false ;;
     failed <- forRange unexpected (wantAbsent got) failed ;;
     if failed then errorF "but got: %#v" [VString got] else ret tt).

Definition ReceiveString (body : fn) : M string := getMessage body true.

End udp.

(** ** [strconv.Quote] on ASCII text *)

Definition hexDigit (n : N) : ascii :=
  match n with
  | 0%N => "0" | 1%N => "1" | 2%N => "2" | 3%N => "3" | 4%N => "4" | 5%N => "5"
  | 6%N => "6" | 7%N => "7" | 8%N => "8" | 9%N => "9" | 10%N => "a" | 11%N => "b"
  | 12%N => "c" | 13%N => "d" | 14%N => "e" | _ => "f"
  end%char.

Definition dquote : ascii := "034"%char.

(** A byte as [strconv.Quote] writes it inside the quotes: the named
    escapes, the printable ASCII characters as they are, and two hex
    digits for the other bytes. *)
Definition quoteByte (c : ascii) : string :=
  let n := N_of_ascii c in
  let esc (x : ascii) := String "\" (String x "") in
  match n with
  | 7%N => esc "a" | 8%N => esc "b" | 12%N => esc "f" | 10%N => esc "n"
  | 13%N => esc "r" | 9%N => esc "t" | 11%N => esc "v"
  | 34%N => esc dquote | 92%N => esc "\"
  | _ =>
      if ((32 <=? n) && (n <? 127))%N then String c ""
      else String "\" (String "x" (String (hexDigit (n / 16)) (String (hexDigit (n mod 16)) "")))
  end%char.

Fixpoint quoteBytes (s : string) : string :=
  match s with
  | EmptyString => EmptyString
  | String c s' => quoteByte c ++ quoteBytes s'
  end.

(** Agrees with [strconv.Quote] on strings of ASCII bytes. *)
Definition QuoteASCII (s : string) : string :=
  String dquote (quoteBytes s ++ String dquote "").

(** ** A test process at its start *)

(** The package variables as Go initialises them ([Timeout] is one
    millisecond), a resolver that accepts every address, nothing bound. *)
Definition boot : World :=
  {| addr := None; listener := None; logBuf := []; Timeout := Millisecond;
     now := 0; busy := []; resolve := fun a => inl a;
     caller := ("udp_test.go", 56);
     trace := []; reports := [] |}.

Definition bytes (s : string) : list byte := list_ascii_of_string s.

(** A body that writes each string as one datagram, at once. *)
Definition writes (l : list string) : fn :=
  {| sends := map (fun s => {| delay := 0; data := bytes s |}) l; elapsed := 0 |}.

Definition run {A} (m : M A) (w : World) : World := snd (m w).
Definition result {A} (m : M A) (w : World) : outcome A := fst (m w).


(** * Properties *)

(** ** Substrings *)

(** [sub] occurs in [s]. *)
Definition Substring (sub s : string) : Prop :=
  exists pre post, s = pre ++ sub ++ post.

Lemma HasPrefix_spec (prefix : string) :
  forall s, strings.HasPrefix s prefix = true <-> exists post, s = prefix ++ post.
Proof.
  induction prefix as [| a prefix IH]; intros s.
  - destruct s; cbn; (split; [intros _; eexists; reflexivity | reflexivity]).
  - destruct s as [| b s]; cbn.
    + split; [discriminate | intros [post H]; discriminate].
    + rewrite andb_true_iff, Ascii.eqb_eq, IH. split.
      * intros [-> [post ->]]. exists post. reflexivity.
      * intros [post H]. injection H as -> ->. split; [reflexivity | eexists; reflexivity].
Qed.

Lemma Index_lower (s substr : string) : -1 <= strings.Index s substr.
Proof.
  induction s as [| c s IH]; cbn [strings.Index].
  - destruct (strings.HasPrefix "" substr); lia.
  - destruct (strings.HasPrefix (String c s) substr); [lia |].
    destruct (strings.Index s substr <? 0) eqn:E; [lia |].
    apply Z.ltb_ge in E. lia.
Qed.

Lemma Contains_spec (s substr : string) :
  strings.Contains s substr = true <-> Substring substr s.
Proof.
  unfold strings.Contains, Substring. rewrite Z.geb_le. split.
  - induction s as [| c s IH]; cbn [strings.Index].
    + destruct (strings.HasPrefix "" substr) eqn:E; [| intros H; exfalso; lia].
      intros _. apply HasPrefix_spec in E. destruct E as [post E].
      exists "", post. exact E.
    + destruct (strings.HasPrefix (String c s) substr) eqn:E.
      * intros _. apply HasPrefix_spec in E. destruct E as [post E].
        exists "", post. exact E.
      * destruct (strings.Index s substr <? 0) eqn:El; [intros H; exfalso; lia |].
        intros _. apply Z.ltb_ge in El.
        destruct (IH El) as (pre & post & ->).
        exists (String c pre), post. reflexivity.
  - intros (pre & post & ->).
    induction pre as [| c pre IH].
    + assert (E : strings.HasPrefix ("" ++ substr ++ post) substr = true)
        by (apply HasPrefix_spec; exists post; reflexivity).
      destruct ("" ++ substr ++ post) eqn:Es; cbn [strings.Index]; rewrite E; lia.
    + cbn [append strings.Index].
      destruct (strings.HasPrefix (String c (pre ++ substr ++ post)) substr); [lia |].
      destruct (strings.Index (pre ++ substr ++ post) substr <? 0) eqn:El.
      * apply Z.ltb_lt in El. lia.
      * pose proof (Index_lower (pre ++ substr ++ post) substr). lia.
Qed.

Lemma Contains_false_spec (s substr : string) :
  strings.Contains s substr = false <-> ~ Substring substr s.
Proof.
  rewrite <- Contains_spec. destruct (strings.Contains s substr); split; congruence.
Qed.

Lemma append_nil_r (s : string) : s ++ "" = s.
Proof. induction s as [| c s IH]; cbn; [reflexivity | now rewrite IH]. Qed.

Lemma append_assoc (s1 s2 s3 : string) : (s1 ++ s2) ++ s3 = s1 ++ s2 ++ s3.
Proof. induction s1 as [| c s1 IH]; cbn; [reflexivity | now rewrite IH]. Qed.

Lemma length_append (s1 s2 : string) :
  String.length (s1 ++ s2) = (String.length s1 + String.length s2)%nat.
Proof. induction s1 as [| c s1 IH]; cbn; [reflexivity | now rewrite IH]. Qed.

Lemma append_inj_l (p s1 s2 : string) : p ++ s1 = p ++ s2 -> s1 = s2.
Proof.
  induction p as [| c p IH]; cbn; intros H; [exact H |].
  injection H as H. exact (IH H).
Qed.

(** ** Formats *)

(** No verb starts in [s]. *)
Fixpoint noPercent (s : string) : bool :=
  match s with
  | EmptyString => true
  | String c rest => negb (Ascii.eqb c "%") && noPercent rest
  end.

Lemma Sprintf_plain (Quote : string -> string) (c : ascii) (rest : string) (a : list value) :
  Ascii.eqb c "%" = false ->
  Sprintf Quote (String c rest) a = String c (Sprintf Quote rest a).
Proof.
  destruct c as [b0 b1 b2 b3 b4 b5 b6 b7].
  destruct b0, b1, b2, b3, b4, b5, b6, b7; intros H;
    first [reflexivity | discriminate H].
Qed.

Lemma Sprintf_prefix (Quote : string -> string) (prefix rest : string) (a : list value) :
  noPercent prefix = true ->
  Sprintf Quote (prefix ++ rest) a = prefix ++ Sprintf Quote rest a.
Proof.
  induction prefix as [| c prefix IH]; intros H; [reflexivity |].
  cbn [noPercent] in H. apply andb_true_iff in H. destruct H as [Hc Hp].
  apply negb_true_iff in Hc.
  cbn [append]. rewrite (Sprintf_plain Quote c _ a Hc), (IH Hp). reflexivity.
Qed.

(** ** Lists of bytes *)

Lemma copyInto_length (p payload : list byte) :
  List.length (copyInto p payload) = List.length p.
Proof.
  unfold copyInto.
  rewrite length_app, length_firstn, length_skipn. lia.
Qed.

Lemma copyInto_prefix (p payload : list byte) (n : nat) :
  n = Nat.min (List.length payload) (List.length p) ->
  firstn n (copyInto p payload) = firstn (List.length p) payload.
Proof.
  intros Hn. unfold copyInto.
  rewrite firstn_app.
  assert (Hl : List.length (firstn (List.length p) payload) = n)
    by (rewrite length_firstn; lia).
  rewrite Hl, Nat.sub_diag, firstn_0, app_nil_r.
  rewrite <- Hl at 1. apply firstn_all.
Qed.

(** The first [r] bytes of a stream whose head datagram fills [n] of them. *)
Lemma firstn_stream (payload rest : list byte) (r n : nat) :
  n = Nat.min (List.length payload) r ->
  (firstn r payload ++ firstn (r - n) rest)%list = firstn r (payload ++ rest)%list.
Proof.
  intros Hn. rewrite firstn_app.
  destruct (Nat.le_ge_cases (List.length payload) r) as [Hle | Hge].
  - replace n with (List.length payload) by lia. reflexivity.
  - replace (r - n)%nat with 0%nat by lia.
    replace (r - List.length payload)%nat with 0%nat by lia. reflexivity.
Qed.

(** One round of the loop on the buffer: [payload] is copied to offset [b]
    and the buffer keeps its length. *)
Lemma buffer_step (message payload : list byte) (b : nat) :
  (b <= List.length message)%nat ->
  let p := skipn b message in
  let n := Nat.min (List.length payload) (List.length p) in
  let message1 := (firstn b message ++ copyInto p payload)%list in
  List.length message1 = List.length message /\
  firstn (b + n) message1 = (firstn b message ++ firstn (List.length p) payload)%list.
Proof.
  intros Hb p n message1. subst message1. split.
  - rewrite length_app, copyInto_length, length_firstn. unfold p.
    rewrite length_skipn. lia.
  - assert (Hl : List.length (firstn b message) = b) by (rewrite length_firstn; lia).
    rewrite <- Hl at 1. rewrite firstn_app_2.
    f_equal. apply copyInto_prefix. reflexivity.
Qed.

Lemma bufSize_eq : bufSize = 32768.
Proof. reflexivity. Qed.

Global Opaque bufSize.

Lemma string_of_list_ascii_length (l : list byte) :
  String.length (string_of_list_ascii l) = List.length l.
Proof. induction l as [| a l IH]; cbn; [reflexivity | now rewrite IH]. Qed.

Lemma existsb_eqb_false (a : string) (l : list string) :
  existsb (String.eqb a) l = false -> ~ In a l.
Proof.
  intros H Hin.
  assert (Ht : existsb (String.eqb a) l = true).
  { apply existsb_exists. exists a. split; [exact Hin | apply String.eqb_refl]. }
  congruence.
Qed.

(** ** The monad *)

(** Projections of an updated world. *)
Ltac wsimpl :=
  cbn [addr listener logBuf Timeout now busy resolve caller trace reports
       set_addr set_listener set_logBuf set_Timeout set_now set_busy set_trace
       set_reports laddr deadline closed queue fst snd] in *.

Lemma bind_Ok {A B} (m : M A) (k : A -> M B) (w w' : World) (a : A) :
  m w = (Ok a, w') -> bind m k w = k a w'.
Proof. intros H. unfold bind. rewrite H. reflexivity. Qed.

Lemma bind_Goexit {A B} (m : M A) (k : A -> M B) (w w' : World) :
  m w = (Goexit, w') -> bind m k w = (Goexit, w').
Proof. intros H. unfold bind. rewrite H. reflexivity. Qed.

Lemma bind_Panic {A B} (m : M A) (k : A -> M B) (w w' : World) (msg : string) :
  m w = (Panic msg, w') -> bind m k w = (Panic msg, w').
Proof. intros H. unfold bind. rewrite H. reflexivity. Qed.

Lemma defer_Ok {A} (deferred : M unit) (body : M A) (w w1 w2 : World) (a : A) (u : unit) :
  body w = (Ok a, w1) -> deferred w1 = (Ok u, w2) ->
  defer deferred body w = (Ok a, w2).
Proof. intros H1 H2. unfold defer. rewrite H1, H2. reflexivity. Qed.

(** What a call leaves alone: the configuration and the surroundings that
    only [SetAddr], an assignment to [Timeout], or the socket layer change. *)
Definition sameConfig (w w' : World) : Prop :=
  addr w' = addr w /\ Timeout w' = Timeout w /\ resolve w' = resolve w /\
  caller w' = caller w.

(** ** The read loop *)

(** Successive reads that each returned data: every one is given the room
    its predecessors left. *)
Inductive Chain : Z -> list event -> Z -> Prop :=
| Chain_nil (room : Z) : Chain room [] room
| Chain_cons (room n room' : Z) (evs : list event) :
    0 < n <= room ->
    Chain (room - n) evs room' ->
    Chain room (EvRead room n None :: evs) room'.

Definition payloads (l : list packet) : list byte := List.concat (map payload l).

Section Collector.

Variable Quote : string -> string.

Definition readErrorLine (err : string) : string :=
  Sprintf Quote "Error reading udp data: %v" [VSlice [VError err]].

(** The lines the loop adds to the log, from how its last read ended. *)
Definition collectorLines (expectData : bool) (bufLen : Z) (err : option string)
  : list string :=
  match err with
  | Some err => if (bufLen =? 0) && expectData then [readErrorLine err] else []
  | None => []
  end.

Lemma ReadFrom_cases (p : list byte) (w : World) (c : UDPConn) (d : Z) :
  listener w = Some c -> closed c = false -> deadline c = Some d ->
  let room := Z.of_nat (List.length p) in
  (exists t,
      ReadFrom p w =
        (Ok (0, Some (timeoutError c), p),
         set_trace (trace w ++ [EvRead room 0 (Some (timeoutError c))])%list
           (set_now t w)))
  \/
  (exists pk rest,
      queue c = pk :: rest /\
      ReadFrom p w =
        (Ok (Z.min (Z.of_nat (List.length (payload pk))) room, None,
             copyInto p (payload pk)),
         set_trace
           (trace w ++
            [EvRead room (Z.min (Z.of_nat (List.length (payload pk))) room) None])%list
           (set_now (Z.max (now w) (arrival pk))
              (set_listener
                 (Some {| laddr := laddr c; deadline := deadline c;
                          closed := closed c; queue := rest |}) w)))).
Proof.
  intros Hl Hc Hd room. unfold ReadFrom. rewrite Hl, Hc, Hd.
  destruct (queue c) as [| pk rest] eqn:Hq.
  - left. eexists. reflexivity.
  - destruct (d <=? now w).
    + left. eexists. reflexivity.
    + destruct (arrival pk <? d).
      * right. exists pk, rest. split; reflexivity.
      * left. eexists. reflexivity.
Qed.

Lemma readLoop_spec (fuel : nat) (expectData : bool) :
  forall (message : list byte) (bufLen : Z) (w : World) (c : UDPConn),
    listener w = Some c -> closed c = false ->
    Z.of_nat (List.length message) = bufSize ->
    0 <= bufLen <= bufSize ->
    (Z.to_nat (bufSize - bufLen) < fuel)%nat ->
    exists message' bufLen' w' c' evs err taken,
      readLoop Quote fuel expectData message bufLen w = (Ok (message', bufLen'), w') /\
      bufLen <= bufLen' <= bufSize /\
      Z.of_nat (List.length message') = bufSize /\
      trace w' = (trace w ++ evs ++ [EvRead (bufSize - bufLen') 0 err])%list /\
      Chain (bufSize - bufLen) evs (bufSize - bufLen') /\
      listener w' = Some c' /\ closed c' = false /\ laddr c' = laddr c /\
      queue c = (taken ++ queue c')%list /\
      firstn (Z.to_nat bufLen') message' =
        (firstn (Z.to_nat bufLen) message ++
         firstn (Z.to_nat (bufSize - bufLen)) (payloads taken))%list /\
      logBuf w' = (logBuf w ++ collectorLines expectData bufLen' err)%list /\
      busy w' = busy w /\ reports w' = reports w /\ sameConfig w w'.
Proof.
  induction fuel as [| fuel IH]; intros message bufLen w c Hl Hc Hlen Hb Hfuel.
  - lia.
  - cbn [readLoop].
    unfold Now, SetReadDeadline, gets, modify, bind at 1 2 3.
    rewrite Hl, Hc.
    replace ((bufLen <? 0) || (bufLen >? Z.of_nat (List.length message))) with false
      by (symmetry; apply orb_false_iff; split; lia).
    set (p := skipn (Z.to_nat bufLen) message).
    assert (Hp : Z.of_nat (List.length p) = bufSize - bufLen)
      by (unfold p; rewrite length_skipn; lia).
    set (c1 := {| laddr := laddr c; deadline := Some (now w + Timeout w);
                  closed := false; queue := queue c |}).
    set (w1 := set_listener (Some c1) w).
    destruct (ReadFrom_cases p w1 c1 (now w + Timeout w) eq_refl eq_refl eq_refl)
      as [(t & Hr) | (pk & rest & Hq & Hr)].
    + (* the read gave up *)
      rewrite (bind_Ok _ _ _ _ _ Hr). cbn [Z.eqb].
      unfold p at 1. rewrite firstn_skipn.
      unfold collectorLines, errorF, modify, bind, ret.
      exists message, bufLen.
      destruct ((bufLen =? 0) && expectData) eqn:Hrec;
        eexists; exists c1, [], (Some (timeoutError c1)), [];
        (split; [rewrite ?Hrec; reflexivity |]); subst w1; wsimpl;
        rewrite Hp, ?app_nil_r; unfold payloads; cbn [map List.concat];
        rewrite firstn_nil, ?app_nil_r;
        repeat split; try lia; try reflexivity; constructor.
    + (* a datagram was delivered *)
      rewrite (bind_Ok _ _ _ _ _ Hr).
      set (n := Z.min (Z.of_nat (List.length (payload pk))) (Z.of_nat (List.length p))).
      set (message1 := (firstn (Z.to_nat bufLen) message ++ copyInto p (payload pk))%list).
      set (c2 := {| laddr := laddr c1; deadline := deadline c1;
                    closed := closed c1; queue := rest |}).
      set (w2 := set_trace _ _).
      destruct (buffer_step message (payload pk) (Z.to_nat bufLen) ltac:(lia))
        as [Hlen1 Hpre]. fold p in Hlen1, Hpre. fold message1 in Hlen1, Hpre.
      assert (Hn : Z.to_nat n =
                   Nat.min (List.length (payload pk)) (List.length p)) by (unfold n; lia).
      rewrite <- Hn in Hpre.
      destruct (n =? 0) eqn:Hz.
      * apply Z.eqb_eq in Hz.
        exists message1, bufLen, w2, c2, [], None, [pk].
        split; [reflexivity |].
        subst w2 w1; wsimpl. rewrite Hp, Hz in *.
        replace (Z.to_nat bufLen + Z.to_nat 0)%nat with (Z.to_nat bufLen) in Hpre by lia.
        unfold payloads; cbn [map List.concat]. rewrite app_nil_r.
        replace (Z.to_nat (bufSize - bufLen)) with (List.length p) by lia.
        repeat split; try lia; try reflexivity; try assumption.
        -- constructor.
        -- unfold collectorLines. rewrite app_nil_r. reflexivity.
      * apply Z.eqb_neq in Hz.
        assert (Hnpos : 0 < n <= bufSize - bufLen) by (unfold n in *; lia).
        destruct (IH message1 (bufLen + n) w2 c2) as
          (message' & bufLen' & w' & c' & evs & err & taken &
           Hrun & Hbd & Hlen' & Htr & Hch & Hl' & Hc' & Hla & Hq' & Hcont & Hlog &
           Hbusy & Hrep & Hcfg);
          try reflexivity; try lia.
        exists message', bufLen', w', c',
          (EvRead (bufSize - bufLen) n None :: evs), err, (pk :: taken).
        split; [exact Hrun |].
        subst w2 w1; wsimpl. rewrite Hp in *.
        repeat split; try lia; try assumption.
        -- rewrite Htr, <- !app_assoc. reflexivity.
        -- constructor; [lia |].
           replace (bufSize - bufLen - n) with (bufSize - (bufLen + n)) by lia.
           exact Hch.
        -- change (queue c = pk :: rest) in Hq.
           change (rest = (taken ++ queue c')%list) in Hq'.
           rewrite Hq, Hq'. reflexivity.
        -- rewrite Hcont.
           replace (Z.to_nat (bufLen + n)) with (Z.to_nat bufLen + Z.to_nat n)%nat by lia.
           rewrite Hpre, <- app_assoc. f_equal.
           unfold payloads; cbn [map List.concat].
           replace (Z.to_nat (bufSize - (bufLen + n)))
             with (Z.to_nat (bufSize - bufLen) - Z.to_nat n)%nat by lia.
           replace (List.length p) with (Z.to_nat (bufSize - bufLen)) by lia.
           apply firstn_stream. lia.
        -- destruct Hcfg as (H1 & _). exact H1.
        -- destruct Hcfg as (_ & H2 & _). exact H2.
        -- destruct Hcfg as (_ & _ & H3 & _). exact H3.
        -- destruct Hcfg as (_ & _ & _ & H4). exact H4.
Qed.

(** The datagrams of [body] as [call] queues them at time [t]. *)
Definition stamped (t : Z) (body : fn) : list packet :=
  map (fun d => {| arrival := t + delay d; payload := data d |}) (sends body).

(** Every way a collection cycle can end.  It never hangs; it panics only
    on a nil [addr]; it exits through [t.Fatal] only when [start] fails,
    before any socket exists; otherwise it returns the capture after the
    events listen, body, reads, close. *)
Definition getMessage_post (body : fn) (expectData : bool) (w : World)
    (r : outcome string) (w' : World) : Prop :=
  match r with
  | Ok msg =>
      exists a ra evs err taken c',
        addr w = Some a /\ resolve w a = inl ra /\
        existsb (String.eqb ra) (busy w) = false /\
        trace w' =
          (trace w ++ [EvListen ra; EvBody] ++ evs ++
           [EvRead (bufSize - Z.of_nat (String.length msg)) 0 err; EvClose])%list /\
        Chain bufSize evs (bufSize - Z.of_nat (String.length msg)) /\
        Z.of_nat (String.length msg) <= bufSize /\
        msg = string_of_list_ascii (firstn (Z.to_nat bufSize) (payloads taken)) /\
        (exists later, stamped (now w) body = (taken ++ later)%list) /\
        logBuf w' =
          (logBuf w ++ collectorLines expectData (Z.of_nat (String.length msg)) err)%list /\
        listener w' = Some c' /\ closed c' = true /\
        busy w' = busy w /\ reports w' = reports w /\ sameConfig w w'
  | Goexit =>
      exists err,
        reports w' = (reports w ++ [Fatal [VError err]])%list /\
        trace w' = trace w /\ logBuf w' = logBuf w /\ busy w' = busy w /\
        sameConfig w w' /\
        (exists a, addr w = Some a /\
           (resolve w a = inr err \/
            exists ra, resolve w a = inl ra /\
                       existsb (String.eqb ra) (busy w) = true))
  | Panic _ => addr w = None /\ w' = w
  | Hang => False
  end.

(** The world [start] leaves when the address resolves and is free. *)
Definition started (ra : string) (w : World) : World :=
  set_listener
    (Some {| laddr := ra; deadline := None; closed := false; queue := [] |})
    (set_trace (trace w ++ [EvListen ra])%list (set_busy (ra :: busy w) w)).

Lemma start_cases (w : World) :
  match addr w with
  | None => exists msg, start w = (Panic msg, w)
  | Some a =>
      match resolve w a with
      | inr err =>
          start w = (Goexit, set_reports (reports w ++ [Fatal [VError err]])%list w)
      | inl ra =>
          if existsb (String.eqb ra) (busy w) then
            exists err,
              start w =
                (Goexit,
                 set_reports (reports w ++ [Fatal [VError err]])%list
                   (set_listener None w))
          else start w = (Ok tt, started ra w)
      end
  end.
Proof.
  cbv beta iota delta
    [start started bind gets ResolveUDPAddr ListenUDP modify t_Fatal goexit panic ret].
  destruct (addr w) as [a |]; [| eexists; reflexivity].
  destruct (resolve w a) as [ra | err]; [| reflexivity].
  destruct (existsb (String.eqb ra) (busy w)); [eexists |]; reflexivity.
Qed.

(** The world [stop] leaves when the listener is open. *)
Definition stopped (c : UDPConn) (w : World) : World :=
  set_trace (trace w ++ [EvClose])%list
    (set_busy (remove string_dec (laddr c) (busy w))
       (set_listener
          (Some {| laddr := laddr c; deadline := deadline c;
                   closed := true; queue := [] |}) w)).

Lemma stop_open (w : World) (c : UDPConn) :
  listener w = Some c -> closed c = false -> stop w = (Ok tt, stopped c w).
Proof.
  intros Hl Hc.
  cbv beta iota delta [stop Close bind ret stopped]. rewrite Hl, Hc. reflexivity.
Qed.

Lemma getMessage_cases (body : fn) (expectData : bool) (w : World) :
  getMessage_post body expectData w
    (result (getMessage Quote body expectData) w)
    (run (getMessage Quote body expectData) w).
Proof.
  unfold result, run, getMessage.
  pose proof (start_cases w) as Hs.
  destruct (addr w) as [a |] eqn:Ha.
  2: { destruct Hs as [msg Hs]. rewrite (bind_Panic _ _ _ _ _ Hs). cbn [fst snd].
       split; [exact Ha | reflexivity]. }
  destruct (resolve w a) as [ra | err] eqn:Hres.
  2: { rewrite (bind_Goexit _ _ _ _ Hs). cbn [fst snd].
       exists err. wsimpl. repeat split; try reflexivity.
       exists a. split; [exact Ha | left; exact Hres]. }
  destruct (existsb (String.eqb ra) (busy w)) eqn:Hbusy.
  { destruct Hs as [err Hs]. rewrite (bind_Goexit _ _ _ _ Hs). cbn [fst snd].
    exists err. wsimpl. repeat split; try reflexivity.
    exists a. split; [exact Ha | right; exists ra; split; assumption]. }
  rewrite (bind_Ok _ _ _ _ _ Hs).
  set (c0 := {| laddr := ra; deadline := None; closed := false;
                queue := stamped (now w) body |}).
  set (w2 := set_trace (trace (started ra w) ++ [EvBody])%list
               (set_now (now w + elapsed body) (set_listener (Some c0) (started ra w)))).
  assert (Hcall : call body (started ra w) = (Ok tt, w2)) by reflexivity.
  assert (Hrep : Z.of_nat (List.length (repeat Ascii.zero (Z.to_nat bufSize))) = bufSize)
    by (rewrite repeat_length; rewrite bufSize_eq; reflexivity).
  destruct (readLoop_spec (S (Z.to_nat bufSize)) expectData
              (repeat Ascii.zero (Z.to_nat bufSize)) 0 w2 c0)
    as (message' & bufLen' & w3 & c3 & evs & err & taken &
        Hrun & Hbd & Hlen' & Htr & Hch & Hl3 & Hc3 & Hla & Hq & Hcont & Hlog &
        Hbusy3 & Hrep3 & Hcfg);
    try reflexivity; try assumption; try (rewrite bufSize_eq; lia).
  set (msg := string_of_list_ascii (firstn (Z.to_nat bufLen') message')).
  assert (Hmsg : Z.of_nat (String.length msg) = bufLen').
  { unfold msg. rewrite string_of_list_ascii_length, length_firstn. lia. }
  match goal with
  | |- context [defer stop ?inner] =>
      assert (Hinner : inner (started ra w) = (Ok msg, w3))
  end.
  { rewrite (bind_Ok _ _ _ _ _ Hcall), (bind_Ok _ _ _ _ _ Hrun).
    cbv beta iota.
    replace ((bufLen' <? 0) || (bufLen' >? Z.of_nat (List.length message'))) with false
      by (symmetry; apply orb_false_iff; split; lia).
    reflexivity. }
  rewrite (defer_Ok _ _ _ _ _ _ _ Hinner (stop_open w3 c3 Hl3 Hc3)).
  cbn [fst snd getMessage_post]. rewrite Hmsg.
  exists a, ra, evs, err, taken. eexists.
  unfold stopped. wsimpl.
  assert (Htr2 : trace w2 = (trace w ++ [EvListen ra; EvBody])%list).
  { unfold w2, started. wsimpl. rewrite <- app_assoc. reflexivity. }
  assert (Hb2 : busy w2 = ra :: busy w) by reflexivity.
  assert (Hcfg2 : sameConfig w w2) by (repeat split).
  replace (bufSize - 0) with bufSize in * by lia.
  change (Z.to_nat 0) with 0%nat in Hcont. rewrite firstn_0 in Hcont. cbn [app] in Hcont.
  repeat split; try assumption; try lia.
  - rewrite Htr, Htr2, <- !app_assoc. reflexivity.
  - unfold msg. rewrite Hcont. reflexivity.
  - exists (queue c3). exact Hq.
  - rewrite Hbusy3, Hb2, Hla. cbn [laddr c0 remove].
    destruct (string_dec ra ra) as [_ | Hne]; [| congruence].
    apply notin_remove, existsb_eqb_false, Hbusy.
  - destruct Hcfg as (H1 & _). exact H1.
  - destruct Hcfg as (_ & H2 & _). exact H2.
  - destruct Hcfg as (_ & _ & H3 & _). exact H3.
  - destruct Hcfg as (_ & _ & _ & H4). exact H4.
Qed.

Lemma getMessage_Ok (body : fn) (expectData : bool) (w w' : World) (msg : string) :
  getMessage Quote body expectData w = (Ok msg, w') ->
  getMessage_post body expectData w (Ok msg) w'.
Proof.
  intros H. pose proof (getMessage_cases body expectData w) as Hc.
  unfold result, run in Hc. rewrite H in Hc. exact Hc.
Qed.

(** A collection cycle always comes back. *)
Lemma getMessage_returns (body : fn) (expectData : bool) (w : World) :
  result (getMessage Quote body expectData) w <> Hang.
Proof.
  pose proof (getMessage_cases body expectData w) as Hc.
  destruct (result (getMessage Quote body expectData) w); try discriminate.
  contradiction.
Qed.

(** *** The flag only matters to the log *)

Definition addLines (lines : list string) (w : World) : World :=
  set_logBuf (logBuf w ++ lines)%list w.

Lemma addLines_nil (w : World) : addLines [] w = w.
Proof. destruct w. unfold addLines, set_logBuf. cbn. rewrite app_nil_r. reflexivity. Qed.

Lemma addLines_app (l1 l2 : list string) (w : World) :
  addLines l2 (addLines l1 w) = addLines (l1 ++ l2) w.
Proof. unfold addLines, set_logBuf. cbn. rewrite app_assoc. reflexivity. Qed.

Lemma errorF_run (format : string) (args : list value) (w : World) :
  errorF Quote format args w = (Ok tt, addLines [Sprintf Quote format [VSlice args]] w).
Proof. reflexivity. Qed.

Lemma readLoop_flag (fuel : nat) :
  forall (message : list byte) (bufLen : Z) (w : World),
  exists extra,
    readLoop Quote fuel true message bufLen w =
      (fst (readLoop Quote fuel false message bufLen w),
       addLines extra (snd (readLoop Quote fuel false message bufLen w))).
Proof.
  induction fuel as [| fuel IH]; intros message bufLen w.
  - exists []. cbn. rewrite addLines_nil. reflexivity.
  - cbn [readLoop].
    cbv beta iota delta [bind Now gets modify SetReadDeadline].
    destruct ((bufLen <? 0) || (bufLen >? Z.of_nat (List.length message))).
    + exists []. cbn. rewrite addLines_nil. reflexivity.
    + match goal with
      | |- context [ReadFrom ?p ?w1] =>
          destruct (ReadFrom p w1) as [[[[n err] p'] | | msg |] w2]
      end.
      2-4: exists []; cbn; rewrite addLines_nil; reflexivity.
      destruct (n =? 0).
      * destruct err as [err |].
        -- destruct (bufLen =? 0).
           ++ eexists. cbn. reflexivity.
           ++ exists []. cbn. rewrite addLines_nil. reflexivity.
        -- exists []. cbn. rewrite addLines_nil. reflexivity.
      * apply IH.
Qed.

Lemma stop_addLines (extra : list string) (w : World) :
  stop (addLines extra w) = (fst (stop w), addLines extra (snd (stop w))).
Proof.
  cbv beta iota delta [stop Close bind ret t_Fatal modify goexit addLines].
  wsimpl. destruct (listener w) as [c |]; [destruct (closed c) |]; reflexivity.
Qed.

(** [x] is [y] with [extra] more lines in the log. *)
Definition upToLog {A} (x y : outcome A * World) : Prop :=
  exists extra, x = (fst y, addLines extra (snd y)).

Lemma upToLog_refl {A} (x : outcome A * World) : upToLog x x.
Proof. exists []. rewrite addLines_nil. destruct x; reflexivity. Qed.

Lemma bind_upToLog_k {A B} (m : M A) (kt kf : A -> M B) (w : World) :
  (forall a w1, upToLog (kt a w1) (kf a w1)) ->
  upToLog (bind m kt w) (bind m kf w).
Proof.
  intros H. unfold bind.
  destruct (m w) as [[a | | msg |] w1]; [apply H | apply upToLog_refl ..].
Qed.

Lemma bind_upToLog_m {A B} (mt mf : M A) (k : A -> M B) (w : World) :
  upToLog (mt w) (mf w) ->
  (forall a w1 extra, k a (addLines extra w1) = (fst (k a w1), addLines extra (snd (k a w1)))) ->
  upToLog (bind mt k w) (bind mf k w).
Proof.
  intros [extra H] Hk. unfold bind. rewrite H.
  destruct (mf w) as [[a | | msg |] w1]; cbn [fst snd];
    try (exists extra; reflexivity).
  exists extra. apply Hk.
Qed.

Lemma defer_stop_upToLog {A} (bt bf : M A) (w : World) :
  upToLog (bt w) (bf w) -> upToLog (defer stop bt w) (defer stop bf w).
Proof.
  intros [extra H]. exists extra. unfold defer. rewrite H.
  destruct (bf w) as [r w']. cbn [fst snd].
  rewrite stop_addLines.
  destruct r; destruct (stop w') as [[u | | msg' |] w'']; reflexivity.
Qed.

(** With and without [expectData] a cycle returns the same capture and
    leaves the same world, up to the lines the flag adds to the log. *)
Lemma getMessage_flag (body : fn) (w : World) :
  upToLog (getMessage Quote body true w) (getMessage Quote body false w).
Proof.
  unfold getMessage.
  apply bind_upToLog_k. intros _ w1.
  apply defer_stop_upToLog.
  apply bind_upToLog_k. intros _ w2. cbv zeta.
  apply bind_upToLog_m.
  - apply readLoop_flag.
  - intros [message' bufLen'] w3 extra.
    destruct ((bufLen' <? 0) || (bufLen' >? Z.of_nat (List.length message')));
      reflexivity.
Qed.

End Collector.

(** ** The assertions *)

Section Assertions.

Variable Quote : string -> string.

(** The world [emitLog] leaves: the log goes to [t.Error] as one text and
    is emptied, or nothing happens. *)
Definition flushed (w : World) : World :=
  match logBuf w with
  | [] => w
  | _ =>
      set_logBuf []
        (set_reports (reports w ++ [Error [VString (strings.Join (logBuf w) nl)]])%list w)
  end.

Lemma emitLog_run (w : World) : emitLog w = (Ok tt, flushed w).
Proof.
  cbv beta iota delta [emitLog bind gets flushed].
  destruct (logBuf w) as [| l ls]; reflexivity.
Qed.

Lemma logBuf_flushed (w : World) : logBuf (flushed w) = [].
Proof. unfold flushed. destruct (logBuf w) eqn:H; [exact H | reflexivity]. Qed.

Lemma reports_flushed (w : World) :
  reports (flushed w) = reports w <-> logBuf w = [].
Proof.
  unfold flushed. destruct (logBuf w) as [| l ls]; wsimpl.
  - split; reflexivity.
  - split; [| discriminate]. intros H.
    apply (f_equal (@List.length report)) in H. rewrite length_app in H.
    cbn in H. lia.
Qed.

Lemma trace_flushed (w : World) : trace (flushed w) = trace w.
Proof. unfold flushed. destruct (logBuf w); reflexivity. Qed.

(** A line with one string operand, and the line of [printLocation]. *)
Definition line1 (format s : string) : string :=
  Sprintf Quote format [VSlice [VString s]].

Definition locationLine (w : World) : string :=
  Sprintf Quote "At: %s:%d" [VSlice [VString (fst (caller w)); VInt (snd (caller w))]].

Lemma bind_errorF {B} (format : string) (args : list value) (k : unit -> M B) (w : World) :
  bind (errorF Quote format args) k w =
    k tt (addLines [Sprintf Quote format [VSlice args]] w).
Proof. reflexivity. Qed.

Lemma printLocation_run (w : World) :
  printLocation Quote w = (Ok tt, addLines [locationLine w] w).
Proof.
  cbv beta iota delta [printLocation bind gets locationLine].
  destruct (caller w). reflexivity.
Qed.

Lemma locationLine_addLines (l : list string) (w : World) :
  locationLine (addLines l w) = locationLine w.
Proof. reflexivity. Qed.

(** An assertion whose checks return flushes what they logged. *)
Lemma deferred_emitLog (inner : M unit) (w w' : World) :
  inner w = (Ok tt, w') -> defer emitLog inner w = (Ok tt, flushed w').
Proof. intros H. exact (defer_Ok _ _ _ _ _ _ _ H (emitLog_run w')). Qed.

Lemma get_run (match_ : string) (body : fn) (expectData : bool) (w w1 : World)
    (got : string) :
  getMessage Quote body expectData w = (Ok got, w1) ->
  get Quote match_ body expectData w =
    (Ok (got, String.eqb got match_, strings.Contains got match_), w1).
Proof. intros H. unfold get. rewrite (bind_Ok _ _ _ _ _ H). reflexivity. Qed.

(** *** What each assertion logs about a capture *)

Definition onlyLines (w : World) (expected got : string) : list string :=
  if String.eqb got expected then []
  else [locationLine w; line1 "Expected: %#v" expected; line1 "But got: %#v" got].

Definition receiveLines (w : World) (expected got : string) : list string :=
  if strings.Contains got expected then []
  else [locationLine w; line1 "Expected: %#v" expected; line1 "But got: %#v" got].

Lemma ShouldReceiveOnly_run (expected : string) (body : fn) (w w1 : World) (got : string) :
  getMessage Quote body true w = (Ok got, w1) ->
  ShouldReceiveOnly Quote expected body w =
    (Ok tt, flushed (addLines (onlyLines w1 expected got) w1)).
Proof.
  intros H. unfold ShouldReceiveOnly. apply deferred_emitLog.
  rewrite (bind_Ok _ _ _ _ _ (get_run expected _ _ _ _ _ H)).
  cbv beta iota zeta. unfold onlyLines.
  destruct (String.eqb got expected); cbn [negb].
  - rewrite addLines_nil. reflexivity.
  - rewrite (bind_Ok _ _ _ _ _ (printLocation_run w1)), bind_errorF, errorF_run.
    rewrite !addLines_app. reflexivity.
Qed.

Lemma ShouldReceive_run (expected : string) (body : fn) (w w1 : World) (got : string) :
  getMessage Quote body false w = (Ok got, w1) ->
  ShouldReceive Quote expected body w =
    (Ok tt, flushed (addLines (receiveLines w1 expected got) w1)).
Proof.
  intros H. unfold ShouldReceive. apply deferred_emitLog.
  rewrite (bind_Ok _ _ _ _ _ (get_run expected _ _ _ _ _ H)).
  cbv beta iota zeta. unfold receiveLines.
  destruct (strings.Contains got expected); cbn [negb].
  - rewrite addLines_nil. reflexivity.
  - rewrite (bind_Ok _ _ _ _ _ (printLocation_run w1)), bind_errorF, errorF_run.
    rewrite !addLines_app. reflexivity.
Qed.

(** *** The loops over a list of strings *)

Definition nonempty {A} (l : list A) : bool :=
  match l with [] => false | _ => true end.

Definition missing (got : string) (expected : list string) : list string :=
  filter (fun str => negb (strings.Contains got str)) expected.

Definition unwanted (got : string) (unexpected : list string) : list string :=
  filter (fun str => strings.Contains got str) unexpected.

(** The shape shared by the two loop bodies. *)
Definition want (test : string -> bool) (format : string) (str : string) (failed : bool)
  : M bool :=
  if test str then
    failed <- (if negb failed then printLocation Quote ;; ret true else ret failed) ;;
    errorF Quote format [VString str] ;;
    ret failed
  else ret failed.

Lemma wantFound_want (got : string) :
  wantFound Quote got = want (fun str => negb (strings.Contains got str)) "Expected to find: %#v".
Proof. reflexivity. Qed.

Lemma wantAbsent_want (got : string) :
  wantAbsent Quote got = want (fun str => strings.Contains got str) "Expected not to find: %#v".
Proof. reflexivity. Qed.

(** The loop logs the location once, before its first complaint unless
    an earlier loop has complained, then one line per offending string,
    in list order. *)
Definition rangeLines (w : World) (format : string) (bad : list string) (failed : bool)
  : list string :=
  ((if failed || negb (nonempty bad) then [] else [locationLine w]) ++
   map (line1 format) bad)%list.

Lemma forRange_want (test : string -> bool) (format : string) (l : list string) :
  forall (failed : bool) (w : World),
    forRange l (want test format) failed w =
      (Ok (failed || nonempty (filter test l)),
       addLines (rangeLines w format (filter test l) failed) w).
Proof.
  induction l as [| str rest IH]; intros failed w.
  - cbn [forRange filter nonempty]. unfold rangeLines. cbn [nonempty negb map].
    rewrite !orb_true_r, orb_false_r. cbn [app]. rewrite addLines_nil. reflexivity.
  - cbn [forRange filter]. unfold want at 1.
    destruct (test str).
    + assert (Hstep :
        (failed0 <- (if negb failed then printLocation Quote ;; ret true else ret failed) ;;
         errorF Quote format [VString str] ;; ret failed0) w =
        (Ok true,
         addLines ((if failed then [] else [locationLine w]) ++ [line1 format str])%list w)).
      { destruct failed; cbn [negb].
        - reflexivity.
        - unfold bind at 1 2.
          rewrite printLocation_run. cbv beta iota delta [ret].
          rewrite bind_errorF, addLines_app. reflexivity. }
      rewrite (bind_Ok _ _ _ _ _ Hstep), IH.
      rewrite addLines_app. unfold rangeLines.
      cbn [nonempty negb orb map]. rewrite orb_true_r, orb_false_r.
      cbn [app]. rewrite <- app_assoc. reflexivity.
    + unfold bind, ret. apply IH.
Qed.

Definition allLines (w : World) (expected : list string) (got : string) : list string :=
  let bad := missing got expected in
  if nonempty bad then
    ([locationLine w] ++ map (line1 "Expected to find: %#v") bad ++
     [line1 "But got: %#v" got])%list
  else [].

Definition anyLines (w : World) (unexpected : list string) (got : string) : list string :=
  let bad := unwanted got unexpected in
  if nonempty bad then
    ([locationLine w] ++ map (line1 "Expected not to find: %#v") bad ++
     [line1 "But got: %#v" got])%list
  else [].

Definition bothLines (w : World) (expected unexpected : list string) (got : string)
  : list string :=
  let lost := missing got expected in
  let bad := unwanted got unexpected in
  if nonempty lost || nonempty bad then
    ([locationLine w] ++ map (line1 "Expected to find: %#v") lost ++
     map (line1 "Expected not to find: %#v") bad ++
     [line1 "but got: %#v" got])%list
  else [].

Lemma ShouldReceiveAll_run (expected : list string) (body : fn) (w w1 : World)
    (got : string) :
  getMessage Quote body true w = (Ok got, w1) ->
  ShouldReceiveAll Quote expected body w =
    (Ok tt, flushed (addLines (allLines w1 expected got) w1)).
Proof.
  intros H. unfold ShouldReceiveAll. apply deferred_emitLog.
  rewrite (bind_Ok _ _ _ _ _ H), wantFound_want.
  rewrite (bind_Ok _ _ _ _ _ (forRange_want _ _ expected false w1)).
  unfold allLines, rangeLines. fold (missing got expected).
  cbn [orb]. destruct (missing got expected) as [| m ms]; cbn [nonempty negb map app].
  - rewrite !addLines_nil. reflexivity.
  - rewrite errorF_run, addLines_app. reflexivity.
Qed.

Lemma ShouldNotReceiveAny_run (unexpected : list string) (body : fn) (w w1 : World)
    (got : string) :
  getMessage Quote body false w = (Ok got, w1) ->
  ShouldNotReceiveAny Quote unexpected body w =
    (Ok tt, flushed (addLines (anyLines w1 unexpected got) w1)).
Proof.
  intros H. unfold ShouldNotReceiveAny. apply deferred_emitLog.
  rewrite (bind_Ok _ _ _ _ _ H), wantAbsent_want.
  rewrite (bind_Ok _ _ _ _ _ (forRange_want _ _ unexpected false w1)).
  unfold anyLines, rangeLines. fold (unwanted got unexpected).
  cbn [orb]. destruct (unwanted got unexpected) as [| m ms]; cbn [nonempty negb map app].
  - rewrite !addLines_nil. reflexivity.
  - rewrite errorF_run, addLines_app. reflexivity.
Qed.

Lemma ShouldReceiveAllAndNotReceiveAny_run (expected unexpected : list string) (body : fn)
    (w w1 : World) (got : string) :
  getMessage Quote body true w = (Ok got, w1) ->
  ShouldReceiveAllAndNotReceiveAny Quote expected unexpected body w =
    (Ok tt, flushed (addLines (bothLines w1 expected unexpected got) w1)).
Proof.
  intros H. unfold ShouldReceiveAllAndNotReceiveAny. apply deferred_emitLog.
  rewrite (bind_Ok _ _ _ _ _ H), wantFound_want, wantAbsent_want.
  rewrite (bind_Ok _ _ _ _ _ (forRange_want _ _ expected false w1)).
  rewrite (bind_Ok _ _ _ _ _ (forRange_want _ _ unexpected _ _)).
  rewrite addLines_app.
  unfold bothLines, rangeLines.
  fold (missing got expected). fold (unwanted got unexpected).
  rewrite locationLine_addLines. cbn [orb].
  destruct (missing got expected) as [| m ms];
    destruct (unwanted got unexpected) as [| u us];
    cbn [nonempty negb orb map app].
  - rewrite !addLines_nil. reflexivity.
  - rewrite errorF_run, addLines_app. reflexivity.
  - rewrite errorF_run, addLines_app, !app_nil_r. reflexivity.
  - rewrite errorF_run, addLines_app.
    cbn [app]. rewrite <- !app_assoc. reflexivity.
Qed.

End Assertions.

(** ** What the trace says about a cycle *)

(** The error of the last read in a trace, if that read failed. *)
Definition lastReadErr (tr : list event) : option string :=
  fold_left (fun acc ev => match ev with EvRead _ _ err => err | _ => acc end) tr None.

Lemma lastReadErr_closing (tr : list event) (room n : Z) (err : option string) :
  lastReadErr (tr ++ [EvRead room n err; EvClose]) = err.
Proof. unfold lastReadErr. rewrite fold_left_app. reflexivity. Qed.

(** How often the body was called. *)
Definition bodyCalls (tr : list event) : nat :=
  List.length (filter (fun ev => match ev with EvBody => true | _ => false end) tr).

Lemma bodyCalls_app (t1 t2 : list event) :
  bodyCalls (t1 ++ t2) = (bodyCalls t1 + bodyCalls t2)%nat.
Proof. unfold bodyCalls. rewrite filter_app, length_app. reflexivity. Qed.

Lemma Chain_bodyCalls (room room' : Z) (evs : list event) :
  Chain room evs room' -> bodyCalls evs = 0%nat.
Proof. induction 1; [reflexivity | assumption]. Qed.

(** Sockets open after a trace, counted from none. *)
Fixpoint opens (tr : list event) : Z :=
  match tr with
  | [] => 0
  | EvListen _ :: rest => 1 + opens rest
  | EvClose :: rest => opens rest - 1
  | _ :: rest => opens rest
  end.

Definition isRead (ev : event) : Prop :=
  match ev with EvRead _ _ _ => True | _ => False end.

(** Events that neither open nor close a socket. *)
Definition quiet (ev : event) : Prop :=
  match ev with EvBody | EvRead _ _ _ => True | _ => False end.

Lemma opens_app (t1 t2 : list event) : opens (t1 ++ t2) = opens t1 + opens t2.
Proof.
  induction t1 as [| ev t1 IH]; [reflexivity |].
  destruct ev; cbn [opens app]; rewrite IH; lia.
Qed.

Lemma opens_quiet (l : list event) : Forall quiet l -> opens l = 0.
Proof.
  induction 1 as [| ev l Hq _ IH]; [reflexivity |].
  destruct ev; cbn in Hq; try contradiction; exact IH.
Qed.

Lemma opens_prefix_quiet (l : list event) :
  Forall quiet l ->
  forall pre post, (l ++ [EvClose])%list = (pre ++ post)%list -> -1 <= opens pre <= 0.
Proof.
  induction 1 as [| ev l Hq _ IH]; intros pre post Heq.
  - destruct pre as [| e pre]; [cbn; lia |].
    cbn in Heq. injection Heq as <- Hrest.
    destruct pre; [cbn; lia | discriminate].
  - destruct pre as [| e pre]; [cbn; lia |].
    cbn in Heq. injection Heq as <- Hrest.
    specialize (IH pre post Hrest).
    destruct ev; cbn in Hq; try contradiction; cbn [opens]; exact IH.
Qed.

(** The cycle's events keep at most one socket open. *)
Lemma opens_prefix_cycle (ra : string) (reads : list event) :
  Forall isRead reads ->
  forall pre post,
    ([EvListen ra; EvBody] ++ reads ++ [EvClose])%list = (pre ++ post)%list ->
    0 <= opens pre <= 1.
Proof.
  intros Hr pre post Heq.
  destruct pre as [| e pre]; [cbn; lia |].
  cbn in Heq. injection Heq as <- Hrest.
  assert (Hq : Forall quiet (EvBody :: reads)).
  { constructor; [exact I |]. eapply Forall_impl; [| exact Hr].
    intros ev; destruct ev; cbn; tauto. }
  pose proof (opens_prefix_quiet _ Hq pre post Hrest). cbn [opens]. lia.
Qed.

Lemma Chain_reads (room room' : Z) (evs : list event) :
  Chain room evs room' -> Forall isRead evs.
Proof. induction 1; constructor; [exact I | assumption]. Qed.

(** Reads seen from the buffer: the read at offset [off] is handed
    [message[off:]], returns [n > 0] bytes that fit, and the next one starts
    at [off + n]. *)
Inductive Reads : Z -> list event -> Z -> Prop :=
| Reads_nil (off : Z) : Reads off [] off
| Reads_cons (off n off' : Z) (evs : list event) :
    0 < n -> off + n <= bufSize ->
    Reads (off + n) evs off' ->
    Reads off (EvRead (bufSize - off) n None :: evs) off'.

(** The bytes the reads of a trace returned. *)
Fixpoint bytesRead (tr : list event) : Z :=
  match tr with
  | [] => 0
  | EvRead _ n _ :: rest => n + bytesRead rest
  | _ :: rest => bytesRead rest
  end.

Lemma Chain_Reads (room room' : Z) (evs : list event) :
  Chain room evs room' -> Reads (bufSize - room) evs (bufSize - room').
Proof.
  induction 1 as [room | room n room' evs Hn _ IH]; [constructor |].
  replace room with (bufSize - (bufSize - room)) at 2 by lia.
  constructor; [lia | lia |].
  replace (bufSize - room + n) with (bufSize - (room - n)) by lia. exact IH.
Qed.

Lemma Reads_bytesRead (off off' : Z) (evs : list event) :
  Reads off evs off' -> off' = off + bytesRead evs.
Proof. induction 1; cbn [bytesRead]; lia. Qed.

(** The test process once [SetAddr(":8126")] has run, as in the package's
    own test. *)
Definition tw : World := run (SetAddr ":8126") boot.

(** An assertion passes: it returns and [t] hears nothing. *)
Definition passes (m : M unit) (w : World) : Prop :=
  result m w = Ok tt /\ reports (run m w) = reports w.

Section Claims.

Variable Quote : string -> string.

Lemma collectorLines_false (bufLen : Z) (err : option string) :
  collectorLines Quote false bufLen err = [].
Proof. unfold collectorLines. destruct err; [rewrite andb_false_r |]; reflexivity. Qed.

Lemma collectorLines_nil_iff (expectData : bool) (got : string) (err : option string) :
  collectorLines Quote expectData (Z.of_nat (String.length got)) err = [] <->
  ~ (got = "" /\ expectData = true /\ err <> None).
Proof.
  unfold collectorLines. destruct err as [e |].
  - destruct got as [| c got]; destruct expectData; cbn -[Z.of_nat]; split;
      try discriminate; try reflexivity; intros H;
      try (exfalso; apply H; repeat split; discriminate);
      try (intros (? & ? & ?); discriminate).
  - split; [| reflexivity]. intros _ (_ & _ & H). apply H. reflexivity.
Qed.

(** The log after a cycle that returned, from the trace it left. *)
Lemma collector_log (body : fn) (expectData : bool) (w w1 : World) (got : string) :
  getMessage Quote body expectData w = (Ok got, w1) ->
  logBuf w1 =
    (logBuf w ++
     collectorLines Quote expectData (Z.of_nat (String.length got))
       (lastReadErr (trace w1)))%list /\
  reports w1 = reports w /\ sameConfig w w1.
Proof.
  intros H. apply getMessage_Ok in H.
  destruct H as (a & ra & evs & err & taken & c' & _ & _ & _ & Htr & _ & _ & _ & _ &
                 Hlog & _ & _ & _ & Hrep & Hcfg).
  repeat split; try assumption; try apply Hcfg.
  rewrite Hlog, Htr. do 2 f_equal.
  rewrite !app_assoc.
  symmetry. apply lastReadErr_closing.
Qed.

Lemma passes_flushed (m : M unit) (w w2 : World) :
  m w = (Ok tt, flushed w2) -> reports w2 = reports w ->
  (passes m w <-> logBuf w2 = []).
Proof.
  intros Hm Hrep. unfold passes, result, run. rewrite Hm. cbn [fst snd].
  rewrite <- Hrep, reports_flushed. tauto.
Qed.

Lemma app_nil_iff {A} (l1 l2 : list A) : (l1 ++ l2)%list = [] <-> l1 = [] /\ l2 = [].
Proof.
  split; [apply app_eq_nil | intros [-> ->]; reflexivity].
Qed.

(** The verdict of an assertion on a cycle that returned: it passes
    exactly when neither the collector nor the check logged a line. *)
Lemma verdict (m : M unit) (body : fn) (expectData : bool) (w w1 : World) (got : string)
    (lines : list string) :
  logBuf w = [] ->
  getMessage Quote body expectData w = (Ok got, w1) ->
  m w = (Ok tt, flushed (addLines lines w1)) ->
  (passes m w <->
   ~ (got = "" /\ expectData = true /\ lastReadErr (trace w1) <> None) /\ lines = []).
Proof.
  intros Hlog Hget Hm.
  destruct (collector_log _ _ _ _ _ Hget) as (Hl1 & Hrep & _).
  rewrite (passes_flushed m w (addLines lines w1) Hm Hrep).
  unfold addLines. wsimpl. rewrite Hl1, Hlog. cbn [app].
  rewrite app_nil_iff, collectorLines_nil_iff. reflexivity.
Qed.

(** C3, as the code has it: a cycle that returns adds to the log exactly
    the collector's line, and it adds one if and only if no byte was
    captured, [expectData] is set and the last read ended with an error;
    the line then carries that error.  Without [expectData] the log is
    left as it was. *)
Theorem collector_failure_iff (body : fn) (expectData : bool) (w w1 : World) (got : string) :
  getMessage Quote body expectData w = (Ok got, w1) ->
  (exists lines,
      logBuf w1 = (logBuf w ++ lines)%list /\
      (lines <> [] <-> got = "" /\ expectData = true /\ lastReadErr (trace w1) <> None) /\
      (lines = [] \/
       exists err, lastReadErr (trace w1) = Some err /\ lines = [readErrorLine Quote err])) /\
  (expectData = false -> logBuf w1 = logBuf w).
Proof.
  intros Hget. destruct (collector_log _ _ _ _ _ Hget) as (Hl1 & _ & _).
  split.
  - exists (collectorLines Quote expectData (Z.of_nat (String.length got))
              (lastReadErr (trace w1))).
    split; [exact Hl1 |]. split.
    + pose proof (collectorLines_nil_iff expectData got (lastReadErr (trace w1))) as Hn.
      destruct (collectorLines Quote expectData (Z.of_nat (String.length got))
                  (lastReadErr (trace w1))) as [| l ls].
      * split; [congruence |]. intros Hc. exfalso. apply (proj1 Hn); [reflexivity | exact Hc].
      * split; [| discriminate]. intros _.
        destruct got as [| c got]; destruct expectData;
          destruct (lastReadErr (trace w1)) as [e |];
          try (exfalso; assert (Hnil : l :: ls = []) by
                 (apply (proj2 Hn); intros (? & ? & ?); congruence);
               discriminate).
        repeat split; discriminate.
    + unfold collectorLines. destruct (lastReadErr (trace w1)) as [e |]; [| left; reflexivity].
      destruct ((Z.of_nat (String.length got) =? 0) && expectData); [| left; reflexivity].
      right. exists e. split; reflexivity.
  - intros ->. rewrite Hl1, collectorLines_false, app_nil_r. reflexivity.
Qed.

(** C1, as the code has it: [ShouldReceiveOnly] passes if and only if the
    capture equals the expected string and is not an empty capture whose
    last read failed.  When nothing arrives the read times out, the
    collector logs its line, and the assertion fails even for the empty
    string. *)
Theorem ShouldReceiveOnly_passes_iff (expected : string) (body : fn) (w w1 : World)
    (got : string) :
  logBuf w = [] ->
  getMessage Quote body true w = (Ok got, w1) ->
  (passes (ShouldReceiveOnly Quote expected body) w <->
   got = expected /\ ~ (got = "" /\ lastReadErr (trace w1) <> None)).
Proof.
  intros Hlog Hget.
  rewrite (verdict _ _ _ _ _ _ _ Hlog Hget (ShouldReceiveOnly_run Quote expected _ _ _ _ Hget)).
  unfold onlyLines.
  destruct (String.eqb_spec got expected) as [Heq | Hne].
  - split.
    + intros [Hn _]. split; [exact Heq |]. intros [H1 H2]. apply Hn. auto.
    + intros [_ Hn]. split; [| reflexivity]. intros (H1 & _ & H2). apply Hn. auto.
  - split; [intros [_ H]; discriminate | intros [H _]; contradiction].
Qed.

(** C6: [ShouldReceive] passes if and only if the expected string occurs
    in the capture. *)
Theorem ShouldReceive_passes_iff (expected : string) (body : fn) (w w1 : World)
    (got : string) :
  logBuf w = [] ->
  getMessage Quote body false w = (Ok got, w1) ->
  (passes (ShouldReceive Quote expected body) w <-> Substring expected got).
Proof.
  intros Hlog Hget.
  rewrite (verdict _ _ _ _ _ _ _ Hlog Hget (ShouldReceive_run Quote expected _ _ _ _ Hget)).
  unfold receiveLines. rewrite <- Contains_spec.
  destruct (strings.Contains got expected).
  - split; [reflexivity |]. intros _. split; [| reflexivity].
    intros (_ & H & _). discriminate.
  - split; [intros [_ H]; discriminate | discriminate].
Qed.

(** *** The list assertions *)

(** What [emitLog] hands to [t.Error] for a log. *)
Definition reportOf (lines : list string) : list report :=
  match lines with
  | [] => []
  | _ => [Error [VString (strings.Join lines nl)]]
  end.

Lemma reports_flushed_eq (w : World) :
  reports (flushed w) = (reports w ++ reportOf (logBuf w))%list.
Proof.
  unfold flushed, reportOf. destruct (logBuf w); wsimpl;
    [rewrite app_nil_r |]; reflexivity.
Qed.

Lemma filter_nil_iff {A} (f : A -> bool) (l : list A) :
  filter f l = [] <-> forall x, In x l -> f x = false.
Proof.
  induction l as [| a l IH]; cbn.
  - split; [intros _ x [] | reflexivity].
  - destruct (f a) eqn:E.
    + split; [discriminate |]. intros H. specialize (H a (or_introl eq_refl)). congruence.
    + rewrite IH. split.
      * intros H x [<- | Hin]; [exact E | apply H, Hin].
      * intros H x Hin. apply H. right. exact Hin.
Qed.

Lemma missing_nil_iff (got : string) (expected : list string) :
  missing got expected = [] <-> forall str, In str expected -> Substring str got.
Proof.
  unfold missing. rewrite filter_nil_iff. split; intros H str Hin.
  - apply Contains_spec. specialize (H str Hin).
    destruct (strings.Contains got str); [reflexivity | discriminate].
  - specialize (H str Hin). apply Contains_spec in H. rewrite H. reflexivity.
Qed.

Lemma unwanted_nil_iff (got : string) (unexpected : list string) :
  unwanted got unexpected = [] <-> forall str, In str unexpected -> ~ Substring str got.
Proof.
  unfold unwanted. rewrite filter_nil_iff. split; intros H str Hin.
  - apply Contains_false_spec, H, Hin.
  - apply Contains_false_spec, H, Hin.
Qed.

Lemma allLines_nil_iff (w : World) (expected : list string) (got : string) :
  allLines Quote w expected got = [] <-> missing got expected = [].
Proof.
  unfold allLines. destruct (missing got expected); cbn; split; congruence.
Qed.

Lemma anyLines_nil_iff (w : World) (unexpected : list string) (got : string) :
  anyLines Quote w unexpected got = [] <-> unwanted got unexpected = [].
Proof.
  unfold anyLines. destruct (unwanted got unexpected); cbn; split; congruence.
Qed.

Lemma bothLines_nil_iff (w : World) (expected unexpected : list string) (got : string) :
  bothLines Quote w expected unexpected got = [] <->
  missing got expected = [] /\ unwanted got unexpected = [].
Proof.
  unfold bothLines.
  destruct (missing got expected); destruct (unwanted got unexpected); cbn;
    split; try tauto; try discriminate; intros [? ?]; discriminate.
Qed.

(** C5, as the code has it: [ShouldReceiveAll] passes if and only if every
    expected string occurs in the capture and the capture is not an empty
    one whose last read failed.  What [t] hears is one report: the lines
    of the collector, then, when a string is missing, the location, one
    line per missing string in list order, and one line with the
    capture. *)
Theorem ShouldReceiveAll_passes_iff (expected : list string) (body : fn) (w w1 : World)
    (got : string) :
  logBuf w = [] ->
  getMessage Quote body true w = (Ok got, w1) ->
  (passes (ShouldReceiveAll Quote expected body) w <->
   (forall str, In str expected -> Substring str got) /\
   ~ (got = "" /\ lastReadErr (trace w1) <> None)) /\
  reports (run (ShouldReceiveAll Quote expected body) w) =
    (reports w ++ reportOf (logBuf w1 ++ allLines Quote w1 expected got))%list /\
  allLines Quote w1 expected got =
    (if nonempty (missing got expected) then
       [locationLine Quote w1] ++
       map (line1 Quote "Expected to find: %#v") (missing got expected) ++
       [line1 Quote "But got: %#v" got]
     else [])%list.
Proof.
  intros Hlog Hget.
  pose proof (ShouldReceiveAll_run Quote expected _ _ _ _ Hget) as Hrun.
  split; [| split].
  - rewrite (verdict _ _ _ _ _ _ _ Hlog Hget Hrun).
    rewrite allLines_nil_iff, missing_nil_iff. split.
    + intros [Hn Hall]. split; [exact Hall |]. intros [H1 H2]. apply Hn. auto.
    + intros [Hall Hn]. split; [| exact Hall]. intros (H1 & _ & H2). apply Hn. auto.
  - unfold run. rewrite Hrun. cbn [snd]. rewrite reports_flushed_eq.
    destruct (collector_log _ _ _ _ _ Hget) as (_ & Hrep & _).
    unfold addLines. wsimpl. rewrite Hrep. reflexivity.
  - reflexivity.
Qed.

(** An assertion whose cycle did not return does not pass. *)
Lemma aborted_assertion {A} (m : M A) (k : A -> M unit) (w : World) :
  (forall a, fst (m w) <> Ok a) -> ~ passes (defer emitLog (bind m k)) w.
Proof.
  intros Hm [Hres _]. unfold result, defer, bind in Hres.
  destruct (m w) as [[a | | msg |] w1]; cbn [fst] in *.
  - exact (Hm a eq_refl).
  - rewrite emitLog_run in Hres. discriminate.
  - rewrite emitLog_run in Hres. discriminate.
  - discriminate.
Qed.

(** The combined assertion passes exactly when the two single ones do, in
    every world and on every path. *)
Lemma both_iff_each (expected unexpected : list string) (body : fn) (w : World) :
  passes (ShouldReceiveAllAndNotReceiveAny Quote expected unexpected body) w <->
  passes (ShouldReceiveAll Quote expected body) w /\
  passes (ShouldNotReceiveAny Quote unexpected body) w.
Proof.
  destruct (getMessage_flag Quote body w) as [extra Hflag].
  destruct (getMessage Quote body false w) as [[got | | msg |] wf] eqn:Hf;
    cbn [fst snd] in Hflag.
  - pose proof (ShouldReceiveAllAndNotReceiveAny_run Quote expected unexpected _ _ _ _ Hflag)
      as Hboth.
    pose proof (ShouldReceiveAll_run Quote expected _ _ _ _ Hflag) as Hall.
    pose proof (ShouldNotReceiveAny_run Quote unexpected _ _ _ _ Hf) as Hany.
    destruct (collector_log _ _ _ _ _ Hflag) as (_ & Hrt & _).
    destruct (collector_log _ _ _ _ _ Hf) as (_ & Hrf & _).
    rewrite (passes_flushed _ _ _ Hboth Hrt), (passes_flushed _ _ _ Hall Hrt),
      (passes_flushed _ _ _ Hany Hrf).
    unfold addLines. wsimpl.
    rewrite !app_nil_iff, bothLines_nil_iff, allLines_nil_iff, anyLines_nil_iff.
    tauto.
  - split; [intros H | intros [H _]];
      (exfalso; revert H; apply aborted_assertion; rewrite Hflag; discriminate).
  - split; [intros H | intros [H _]];
      (exfalso; revert H; apply aborted_assertion; rewrite Hflag; discriminate).
  - split; [intros H | intros [H _]];
      (exfalso; revert H; apply aborted_assertion; rewrite Hflag; discriminate).
Qed.

(** C4: on one capture, [ShouldReceiveAllAndNotReceiveAny] passes exactly
    when [ShouldReceiveAll] on the expected list and [ShouldNotReceiveAny]
    on the unexpected list both pass; the body is called once; and [t]
    hears one report in which both loops have spoken: after the
    collector's lines, the location, a line for every missing string, a
    line for every unwanted string, and the capture. *)
Theorem ShouldReceiveAllAndNotReceiveAny_is_conjunction
    (expected unexpected : list string) (body : fn) (w w1 : World) (got : string) :
  getMessage Quote body true w = (Ok got, w1) ->
  (passes (ShouldReceiveAllAndNotReceiveAny Quote expected unexpected body) w <->
   passes (ShouldReceiveAll Quote expected body) w /\
   passes (ShouldNotReceiveAny Quote unexpected body) w) /\
  bodyCalls (trace (run (ShouldReceiveAllAndNotReceiveAny Quote expected unexpected body) w))
    = (bodyCalls (trace w) + 1)%nat /\
  reports (run (ShouldReceiveAllAndNotReceiveAny Quote expected unexpected body) w) =
    (reports w ++
     reportOf (logBuf w1 ++ bothLines Quote w1 expected unexpected got))%list /\
  bothLines Quote w1 expected unexpected got =
    (if nonempty (missing got expected) || nonempty (unwanted got unexpected) then
       [locationLine Quote w1] ++
       map (line1 Quote "Expected to find: %#v") (missing got expected) ++
       map (line1 Quote "Expected not to find: %#v") (unwanted got unexpected) ++
       [line1 Quote "but got: %#v" got]
     else [])%list.
Proof.
  intros Hget.
  pose proof (ShouldReceiveAllAndNotReceiveAny_run Quote expected unexpected _ _ _ _ Hget)
    as Hrun.
  split; [apply both_iff_each |]. split; [| split; [| reflexivity]].
  - unfold run. rewrite Hrun. cbn [snd]. rewrite trace_flushed.
    unfold addLines. wsimpl.
    apply getMessage_Ok in Hget.
    destruct Hget as (a & ra & evs & err & taken & c' & _ & _ & _ & Htr & Hch & _).
    rewrite Htr, !bodyCalls_app, (Chain_bodyCalls _ _ _ Hch). reflexivity.
  - unfold run. rewrite Hrun. cbn [snd]. rewrite reports_flushed_eq.
    destruct (collector_log _ _ _ _ _ Hget) as (_ & Hrep & _).
    unfold addLines. wsimpl. rewrite Hrep. reflexivity.
Qed.

(** *** The socket and the buffer *)

(** C7: a collection cycle never hangs; its socket events are listen,
    body, reads, close, in that order, or none at all when [start] ends
    the test before a socket exists; the listener is closed when the cycle
    returns, whatever the reads returned; and along the way at most one
    socket is open and none is left open. *)
Theorem cycle_opens_and_closes (body : fn) (expectData : bool) (w : World) :
  exists cyc,
    trace (run (getMessage Quote body expectData) w) = (trace w ++ cyc)%list /\
    opens cyc = 0 /\
    (forall pre post, cyc = (pre ++ post)%list -> 0 <= opens pre <= 1) /\
    match result (getMessage Quote body expectData) w with
    | Ok _ =>
        (exists ra reads,
            cyc = ([EvListen ra; EvBody] ++ reads ++ [EvClose])%list /\
            reads <> [] /\ Forall isRead reads) /\
        (exists c, listener (run (getMessage Quote body expectData) w) = Some c /\
                   closed c = true)
    | Goexit | Panic _ => cyc = []
    | Hang => False
    end.
Proof.
  pose proof (getMessage_cases Quote body expectData w) as Hc.
  destruct (result (getMessage Quote body expectData) w) as [msg | | pmsg |];
    cbn [getMessage_post] in Hc.
  - destruct Hc as (a & ra & evs & err & taken & c' & _ & _ & _ & Htr & Hch & _ & _ & _ &
                    _ & Hl & Hcl & _).
    set (last := EvRead (bufSize - Z.of_nat (String.length msg)) 0 err) in *.
    assert (Hreads : Forall isRead (evs ++ [last])%list).
    { apply Forall_app. split; [exact (Chain_reads _ _ _ Hch) |].
      constructor; [exact I | constructor]. }
    exists ([EvListen ra; EvBody] ++ (evs ++ [last]) ++ [EvClose])%list.
    split; [| split; [| split; [| split]]].
    + rewrite Htr. rewrite <- !app_assoc. reflexivity.
    + cbn [app opens]. rewrite opens_app, (opens_quiet (evs ++ [last])).
      * reflexivity.
      * eapply Forall_impl; [| exact Hreads]. intros ev; destruct ev; cbn; tauto.
    + apply opens_prefix_cycle, Hreads.
    + exists ra, (evs ++ [last])%list. split; [reflexivity |].
      split; [| exact Hreads]. destruct evs; discriminate.
    + exists c'. split; assumption.
  - destruct Hc as (err & _ & Htr & _). exists []. rewrite Htr, app_nil_r.
    split; [reflexivity |]. split; [reflexivity |]. split; [| reflexivity].
    intros pre post Heq. symmetry in Heq. apply app_eq_nil in Heq.
    destruct Heq as [-> _]. cbn. lia.
  - destruct Hc as [_ Hw]. exists []. rewrite Hw, app_nil_r.
    split; [reflexivity |]. split; [reflexivity |]. split; [| reflexivity].
    intros pre post Heq. symmetry in Heq. apply app_eq_nil in Heq.
    destruct Heq as [-> _]. cbn. lia.
  - contradiction.
Qed.

(** C8: in a cycle that returns, the first read is handed the whole
    32768-byte buffer, every read that returns [n > 0] bytes is followed
    by one at offset plus [n], no read starts beyond the buffer, and the
    capture is as long as the bytes read, at most 32768, and holds the
    datagrams taken from the queue in their order of arrival, cut at the
    capacity. *)
Theorem capture_fills_buffer_in_order (body : fn) (expectData : bool) (w w1 : World)
    (msg : string) :
  getMessage Quote body expectData w = (Ok msg, w1) ->
  exists ra evs err taken later,
    trace w1 =
      (trace w ++ [EvListen ra; EvBody] ++ evs ++
       [EvRead (32768 - Z.of_nat (String.length msg)) 0 err; EvClose])%list /\
    bufSize = 32768 /\
    Reads 0 evs (Z.of_nat (String.length msg)) /\
    Z.of_nat (String.length msg) = bytesRead evs /\
    Z.of_nat (String.length msg) <= 32768 /\
    stamped (now w) body = (taken ++ later)%list /\
    msg = string_of_list_ascii (firstn (Z.to_nat 32768) (payloads taken)).
Proof.
  intros Hget. apply getMessage_Ok in Hget.
  destruct Hget as (a & ra & evs & err & taken & c' & _ & _ & _ & Htr & Hch & Hle &
                    Hmsg & (later & Hq) & _).
  exists ra, evs, err, taken, later.
  pose proof (Chain_Reads _ _ _ Hch) as Hr.
  replace (bufSize - bufSize) with 0 in Hr by lia.
  replace (bufSize - (bufSize - Z.of_nat (String.length msg)))
    with (Z.of_nat (String.length msg)) in Hr by lia.
  pose proof (Reads_bytesRead _ _ _ Hr) as Hsum.
  rewrite bufSize_eq in Htr, Hle, Hmsg.
  repeat split; try assumption; try lia.
Qed.

(** *** Formatting and configuration *)

(** C9: [errorF] gives [fmt.Sprintf] one operand, the slice of its
    arguments.  A line written with [%#v] for one string therefore shows
    the slice in Go syntax around the quoted string, not the quoted string
    the format was written for; the location line and the collector's
    line show their values in brackets, the former with the verbs that
    found no fitting operand. *)
Theorem errorF_formats_the_slice (format : string) (args : list value)
    (prefix s file err : string) (line : Z) (w : World) :
  noPercent prefix = true ->
  logBuf (run (errorF Quote format args) w) =
    (logBuf w ++ [Sprintf Quote format [VSlice args]])%list /\
  logBuf (run (errorF Quote (prefix ++ "%#v") [VString s]) w) =
    (logBuf w ++ [(prefix ++ "[]interface {}{" ++ Quote s ++ "}")%string])%list /\
  Sprintf Quote (prefix ++ "%#v") [VString s] = prefix ++ Quote s /\
  prefix ++ "[]interface {}{" ++ Quote s ++ "}" <> prefix ++ Quote s /\
  Sprintf Quote "At: %s:%d" [VSlice [VString file; VInt line]] =
    "At: [" ++ file ++ " %!s(int=" ++ itoa line ++ ")]:%!d(MISSING)" /\
  Sprintf Quote "Error reading udp data: %v" [VSlice [VError err]] =
    "Error reading udp data: [" ++ err ++ "]".
Proof.
  intros Hp.
  assert (Hslice : Sprintf Quote (prefix ++ "%#v") [VSlice [VString s]] =
                   prefix ++ "[]interface {}{" ++ Quote s ++ "}").
  { rewrite (Sprintf_prefix Quote prefix _ _ Hp). cbn. rewrite append_nil_r. reflexivity. }
  split; [reflexivity |]. split; [| split; [| split; [| split]]].
  - unfold run, errorF, modify. wsimpl. rewrite Hslice. reflexivity.
  - rewrite (Sprintf_prefix Quote prefix _ _ Hp). cbn. rewrite append_nil_r. reflexivity.
  - intros H. apply append_inj_l in H.
    apply (f_equal String.length) in H.
    rewrite !length_append in H. cbn in H. lia.
  - cbn. repeat (rewrite append_assoc; cbn). reflexivity.
  - cbn. repeat (rewrite append_assoc; cbn). reflexivity.
Qed.

(** C10: setting the same address twice, or assigning the same timeout
    twice, leaves the world that setting it once leaves, and so every
    cycle run afterwards does the same. *)
Theorem configuration_is_idempotent (a : string) (d : Z) (body : fn) (expectData : bool)
    (w : World) :
  run (SetAddr a ;; SetAddr a) w = run (SetAddr a) w /\
  run (SetTimeout d ;; SetTimeout d) w = run (SetTimeout d) w /\
  getMessage Quote body expectData (run (SetAddr a ;; SetAddr a) w) =
    getMessage Quote body expectData (run (SetAddr a) w) /\
  getMessage Quote body expectData (run (SetTimeout d ;; SetTimeout d) w) =
    getMessage Quote body expectData (run (SetTimeout d) w).
Proof. repeat split. Qed.

(** *** The log after an assertion *)

(** A call that always comes back. *)
Definition Returns {A} (m : M A) : Prop := forall w, result m w <> Hang.

Lemma Returns_ret {A} (a : A) : Returns (ret a).
Proof. intros w. discriminate. Qed.

Lemma Returns_bind {A B} (m : M A) (k : A -> M B) :
  Returns m -> (forall a, Returns (k a)) -> Returns (bind m k).
Proof.
  intros Hm Hk w. specialize (Hm w). unfold result, bind in *.
  destruct (m w) as [[a | | msg |] w1]; cbn [fst] in *;
    [apply Hk | discriminate | discriminate | exfalso; apply Hm; reflexivity].
Qed.

Lemma Returns_errorF (format : string) (args : list value) :
  Returns (errorF Quote format args).
Proof. intros w. discriminate. Qed.

Lemma Returns_printLocation : Returns (printLocation Quote).
Proof. intros w. unfold result. rewrite printLocation_run. discriminate. Qed.

Lemma Returns_getMessage (body : fn) (expectData : bool) :
  Returns (getMessage Quote body expectData).
Proof. intros w. apply getMessage_returns. Qed.

Lemma Returns_get (match_ : string) (body : fn) (expectData : bool) :
  Returns (get Quote match_ body expectData).
Proof.
  apply Returns_bind; [apply Returns_getMessage | intros; apply Returns_ret].
Qed.

Lemma Returns_forRange (test : string -> bool) (format : string) (l : list string)
    (failed : bool) :
  Returns (forRange l (want Quote test format) failed).
Proof. intros w. unfold result. rewrite forRange_want. discriminate. Qed.

Lemma drained (inner : M unit) (w : World) :
  Returns inner -> logBuf (run (defer emitLog inner) w) = [].
Proof.
  intros H. specialize (H w). unfold run, result, defer in *.
  destruct (inner w) as [[u | | msg |] w1]; cbn [fst] in H;
    try (rewrite emitLog_run; apply logBuf_flushed).
  contradiction.
Qed.

Ltac returns :=
  repeat first
    [ apply Returns_ret | apply Returns_errorF | apply Returns_printLocation
    | apply Returns_get | apply Returns_getMessage | apply Returns_forRange
    | apply Returns_bind
    | match goal with
      | |- forall _ : _ * _ * _, _ => intros [[? ?] ?]; cbv beta iota zeta
      | |- forall _, Returns _ => intro
      | |- Returns (if ?b then _ else _) => destruct b
      end ].

(** Every assertion that defers [emitLog] leaves the log empty, on every
    path: return, [t.Fatal], panic. *)
Lemma assertions_drain_log (body : fn) (s : string) (l1 l2 : list string) (w : World) :
  logBuf (run (ShouldReceiveOnly Quote s body) w) = [] /\
  logBuf (run (ShouldNotReceiveOnly Quote s body) w) = [] /\
  logBuf (run (ShouldReceive Quote s body) w) = [] /\
  logBuf (run (ShouldNotReceive Quote s body) w) = [] /\
  logBuf (run (ShouldReceiveNothing Quote body) w) = [] /\
  logBuf (run (ShouldReceiveAll Quote l1 body) w) = [] /\
  logBuf (run (ShouldNotReceiveAny Quote l1 body) w) = [] /\
  logBuf (run (ShouldReceiveAllAndNotReceiveAny Quote l1 l2 body) w) = [].
Proof.
  repeat split; apply drained;
    rewrite ?wantFound_want, ?wantAbsent_want; returns.
Qed.

End Claims.

(** ** Runs of the package's own test cases *)

(** C2: [ReceiveString] collects with [expectData] set and defers no
    [emitLog].  After a silent body the collector's line stays in the log,
    and the next assertion, here a [ShouldReceiveNothing] that has nothing
    to complain about, hands it to [t.Error]. *)
Theorem ReceiveString_leaves_its_failure_in_the_log :
  logBuf tw = [] /\
  result (ReceiveString QuoteASCII (writes [])) tw = Ok "" /\
  logBuf (run (ReceiveString QuoteASCII (writes [])) tw) =
    ["Error reading udp data: [read udp :8126: i/o timeout]"] /\
  reports (run (ReceiveString QuoteASCII (writes []) ;;
                ShouldReceiveNothing QuoteASCII (writes [])) tw) =
    [Error [VString "Error reading udp data: [read udp :8126: i/o timeout]"]] /\
  reports (run (ShouldReceiveNothing QuoteASCII (writes [])) tw) = [].
Proof. vm_compute. repeat split. Qed.

(** The capture of a run in the test world. *)
Definition captured (body : fn) (expectData : bool) : World :=
  run (getMessage QuoteASCII body expectData) tw.

(** The table of [TestAll]: what [get] returns for each row. *)
Example get_table :
  result (get QuoteASCII "foo" (writes ["foo"]) true) tw = Ok ("foo", true, true) /\
  result (get QuoteASCII "foo" (writes ["bar"]) true) tw = Ok ("bar", false, false) /\
  result (get QuoteASCII "foo" (writes ["foobar"]) true) tw = Ok ("foobar", false, true) /\
  result (get QuoteASCII "foo" (writes [""]) true) tw = Ok ("", false, false) /\
  result (get QuoteASCII "" (writes [""]) true) tw = Ok ("", true, true) /\
  result (get QuoteASCII "" (writes []) true) tw = Ok ("", true, true).
Proof. vm_compute. repeat split. Qed.

(** C1 fails as stated: with a silent body the capture is the empty string,
    equal to the expected one, and the assertion does not pass. *)
Lemma ShouldReceiveOnly_empty_on_silence :
  ~ (passes (ShouldReceiveOnly QuoteASCII "" (writes [])) tw <->
     result (getMessage QuoteASCII (writes []) true) tw = Ok "").
Proof.
  intros [_ H].
  assert (Hp : passes (ShouldReceiveOnly QuoteASCII "" (writes [])) tw)
    by (apply H; vm_compute; reflexivity).
  destruct Hp as [_ Hr]. vm_compute in Hr. discriminate.
Qed.

Lemma ShouldReceiveOnly_passes_iff_witness :
  logBuf tw = [] /\
  getMessage QuoteASCII (writes ["foo"]) true tw = (Ok "foo", captured (writes ["foo"]) true) /\
  (passes (ShouldReceiveOnly QuoteASCII "foo" (writes ["foo"])) tw <->
   "foo" = "foo" /\
   ~ ("foo" = "" /\ lastReadErr (trace (captured (writes ["foo"]) true)) <> None)).
Proof.
  split; [reflexivity |]. split; [vm_compute; reflexivity |].
  apply (ShouldReceiveOnly_passes_iff QuoteASCII "foo" (writes ["foo"]) tw
           (captured (writes ["foo"]) true) "foo");
    [reflexivity | vm_compute; reflexivity].
Defined.

(** C3 fails as stated: an empty datagram ends the cycle with no byte
    captured and [expectData] set, and nothing is logged. *)
Lemma collector_silent_on_empty_datagram :
  ~ (logBuf (run (getMessage QuoteASCII (writes [""]) true) tw) <> logBuf tw <->
     result (getMessage QuoteASCII (writes [""]) true) tw = Ok "" /\ true = true).
Proof.
  intros [_ H]. apply H; [split |]; vm_compute; reflexivity.
Qed.

Lemma collector_failure_iff_witness :
  getMessage QuoteASCII (writes []) true tw = (Ok "", captured (writes []) true) /\
  logBuf (captured (writes []) true) =
    ["Error reading udp data: [read udp :8126: i/o timeout]"].
Proof.
  split; [vm_compute; reflexivity |].
  destruct (collector_failure_iff QuoteASCII (writes []) true tw
              (captured (writes []) true) "") as [(lines & Hlog & Hiff & Hline) _];
    [vm_compute; reflexivity |].
  destruct Hline as [Hnil | (err & Herr & Hl)].
  - exfalso. apply (proj2 Hiff); [| exact Hnil].
    repeat split. vm_compute. discriminate.
  - rewrite Hlog, Hl. vm_compute in Herr. injection Herr as <-. reflexivity.
Defined.

(** C5 fails as stated: with a silent body every string of the empty list
    occurs in the capture, and the assertion does not pass. *)
Lemma ShouldReceiveAll_nothing_on_silence :
  result (getMessage QuoteASCII (writes []) true) tw = Ok "" /\
  ~ (passes (ShouldReceiveAll QuoteASCII [] (writes [])) tw <->
     forall str, In str [] -> Substring str "").
Proof.
  split; [vm_compute; reflexivity |].
  intros [_ H].
  assert (Hp : passes (ShouldReceiveAll QuoteASCII [] (writes [])) tw)
    by (apply H; intros str []).
  destruct Hp as [_ Hr]. vm_compute in Hr. discriminate.
Qed.

Lemma ShouldReceiveAll_passes_iff_witness :
  logBuf tw = [] /\
  getMessage QuoteASCII (writes ["foo"; "biz"; "bar"]) true tw =
    (Ok "foobizbar", captured (writes ["foo"; "biz"; "bar"]) true) /\
  passes (ShouldReceiveAll QuoteASCII ["foo"; "bar"] (writes ["foo"; "biz"; "bar"])) tw.
Proof.
  split; [reflexivity |]. split; [vm_compute; reflexivity |].
  apply (ShouldReceiveAll_passes_iff QuoteASCII ["foo"; "bar"] (writes ["foo"; "biz"; "bar"])
           tw (captured (writes ["foo"; "biz"; "bar"]) true) "foobizbar");
    [reflexivity | vm_compute; reflexivity |].
  split.
  - intros str [<- | [<- | []]]; apply Contains_spec; vm_compute; reflexivity.
  - intros [H _]. discriminate.
Defined.

Lemma ShouldReceive_passes_iff_witness :
  logBuf tw = [] /\
  getMessage QuoteASCII (writes ["barfoo"]) false tw =
    (Ok "barfoo", captured (writes ["barfoo"]) false) /\
  passes (ShouldReceive QuoteASCII "foo" (writes ["barfoo"])) tw.
Proof.
  split; [reflexivity |]. split; [vm_compute; reflexivity |].
  apply (ShouldReceive_passes_iff QuoteASCII "foo" (writes ["barfoo"]) tw
           (captured (writes ["barfoo"]) false) "barfoo");
    [reflexivity | vm_compute; reflexivity |].
  exists "bar", "". reflexivity.
Defined.

(** The captures named for [ShouldReceive]: three that pass, two that do
    not. *)
Example ShouldReceive_foo :
  reports (run (ShouldReceive QuoteASCII "foo" (writes ["barfoo"])) tw) = [] /\
  reports (run (ShouldReceive QuoteASCII "foo" (writes ["foobar"])) tw) = [] /\
  reports (run (ShouldReceive QuoteASCII "foo" (writes ["foo"])) tw) = [] /\
  reports (run (ShouldReceive QuoteASCII "foo" (writes ["fo"])) tw) <> [] /\
  reports (run (ShouldReceive QuoteASCII "foo" (writes [""])) tw) <> [] /\
  reports (run (ShouldReceive QuoteASCII "foo" (writes [])) tw) <> [].
Proof. vm_compute. repeat split; discriminate. Qed.

Lemma ShouldReceiveAllAndNotReceiveAny_is_conjunction_witness :
  getMessage QuoteASCII (writes ["foo"; "biz"; "bar"]) true tw =
    (Ok "foobizbar", captured (writes ["foo"; "biz"; "bar"]) true) /\
  bodyCalls
    (trace (run (ShouldReceiveAllAndNotReceiveAny QuoteASCII ["foo"; "bar"] ["fooby"; "bars"]
                   (writes ["foo"; "biz"; "bar"])) tw)) = (bodyCalls (trace tw) + 1)%nat.
Proof.
  split; [vm_compute; reflexivity |].
  apply (ShouldReceiveAllAndNotReceiveAny_is_conjunction QuoteASCII
           ["foo"; "bar"] ["fooby"; "bars"] (writes ["foo"; "biz"; "bar"]) tw
           (captured (writes ["foo"; "biz"; "bar"]) true) "foobizbar").
  vm_compute. reflexivity.
Defined.

(** Both loops speak in one report. *)
Example ShouldReceiveAllAndNotReceiveAny_report :
  reports (run (ShouldReceiveAllAndNotReceiveAny QuoteASCII ["foo"; "baz"] ["biz"; "bars"]
                  (writes ["foo"; "biz"; "bar"])) tw) =
    [Error [VString (strings.Join
       ["At: [udp_test.go %!s(int=56)]:%!d(MISSING)";
        line1 QuoteASCII "Expected to find: %#v" "baz";
        line1 QuoteASCII "Expected not to find: %#v" "biz";
        line1 QuoteASCII "but got: %#v" "foobizbar"] nl)]].
Proof. vm_compute. reflexivity. Qed.

Lemma capture_fills_buffer_in_order_witness :
  getMessage QuoteASCII (writes ["foo"; "bar"]) true tw =
    (Ok "foobar", captured (writes ["foo"; "bar"]) true) /\
  exists ra evs err taken later,
    trace (captured (writes ["foo"; "bar"]) true) =
      (trace tw ++ [EvListen ra; EvBody] ++ evs ++
       [EvRead (32768 - Z.of_nat (String.length "foobar")) 0 err; EvClose])%list /\
    bufSize = 32768 /\
    Reads 0 evs (Z.of_nat (String.length "foobar")) /\
    Z.of_nat (String.length "foobar") = bytesRead evs /\
    Z.of_nat (String.length "foobar") <= 32768 /\
    stamped (now tw) (writes ["foo"; "bar"]) = (taken ++ later)%list /\
    "foobar" = string_of_list_ascii (firstn (Z.to_nat 32768) (payloads taken)).
Proof.
  split; [vm_compute; reflexivity |].
  apply (capture_fills_buffer_in_order QuoteASCII (writes ["foo"; "bar"]) true tw).
  vm_compute. reflexivity.
Defined.

(** The events of that cycle. *)
Example cycle_trace :
  trace (captured (writes ["foo"; "bar"]) true) =
    [EvListen ":8126"; EvBody; EvRead 32768 3 None; EvRead 32765 3 None;
     EvRead 32762 0 (Some "read udp :8126: i/o timeout"); EvClose].
Proof. vm_compute. reflexivity. Qed.

Lemma errorF_formats_the_slice_witness :
  noPercent "Expected: " = true /\
  logBuf (run (errorF QuoteASCII "Expected: %#v" [VString "foo"]) tw) =
    [String.append "Expected: []interface {}{" (String.append (QuoteASCII "foo") "}")].
Proof.
  split; [reflexivity |].
  apply (errorF_formats_the_slice QuoteASCII "" [] "Expected: " "foo" "" "" 0 tw).
  reflexivity.
Defined.

(** The line of the claim, with the quotes that [strconv.Quote] adds. *)
Example expected_line_is_a_slice :
  logBuf (run (errorF QuoteASCII "Expected: %#v" [VString "foo"]) tw) =
    [String.append "Expected: []interface {}{"
       (String dquote (String.append "foo" (String dquote "}")))].
Proof. vm_compute. reflexivity. Qed.

(** ** The idle timeout *)

Definition ms (n : Z) : Z := n * Millisecond.

(** [TestRaceConditionInReadingResults]: the body sleeps between its
    writes and returns after the last one; all three datagrams wait in the
    queue when the reads begin. *)
Example slow_body_is_captured :
  let body :=
    {| sends := [ {| delay := ms 100; data := bytes "foo" |};
                  {| delay := ms 300; data := bytes "biz" |};
                  {| delay := ms 800; data := bytes "bar" |} ];
       elapsed := ms 800 |} in
  result (getMessage QuoteASCII body true) tw = Ok "foobizbar" /\
  reports (run (ShouldReceiveAllAndNotReceiveAny QuoteASCII
                  ["foo"; "bar"; "biz"] ["fooby"; "bars"] body) tw) = [].
Proof. vm_compute. split; reflexivity. Qed.

(** A datagram that arrives more than [Timeout] after the previous one is
    not part of the capture; a longer [Timeout] takes it in. *)
Example late_datagram :
  let body :=
    {| sends := [ {| delay := 0; data := bytes "foo" |};
                  {| delay := ms 5; data := bytes "bar" |} ];
       elapsed := 0 |} in
  result (getMessage QuoteASCII body true) tw = Ok "foo" /\
  result (SetTimeout (ms 10) ;; getMessage QuoteASCII body true) tw = Ok "foobar".
Proof. vm_compute. split; reflexivity. Qed.


(** * Further properties of the package *)

Section Negations.

Variable Quote : string -> string.

(** ** The assertions that expect absence *)

Definition notOnlyLines (w : World) (notExpected got : string) : list string :=
  if String.eqb got notExpected then
    [locationLine Quote w; line1 Quote "Expected not to get: %#v" notExpected]
  else [].

Definition notReceiveLines (w : World) (expected got : string) : list string :=
  if strings.Contains got expected then
    [locationLine Quote w; line1 Quote "Expected not to find: %#v" expected;
     line1 Quote "But got: %#v" got]
  else [].

Definition nothingLines (w : World) (got : string) : list string :=
  if Z.of_nat (String.length got) >? 0 then
    [locationLine Quote w; line1 Quote "Expected no data, but got: %#v" got]
  else [].

Lemma ShouldNotReceiveOnly_run (notExpected : string) (body : fn) (w w1 : World)
    (got : string) :
  getMessage Quote body false w = (Ok got, w1) ->
  ShouldNotReceiveOnly Quote notExpected body w =
    (Ok tt, flushed (addLines (notOnlyLines w1 notExpected got) w1)).
Proof.
  intros H. unfold ShouldNotReceiveOnly. apply deferred_emitLog.
  rewrite (bind_Ok _ _ _ _ _ (get_run Quote notExpected _ _ _ _ _ H)).
  cbv beta iota zeta. unfold notOnlyLines.
  destruct (String.eqb got notExpected).
  - rewrite (bind_Ok _ _ _ _ _ (printLocation_run Quote w1)), errorF_run.
    rewrite !addLines_app. reflexivity.
  - rewrite addLines_nil. reflexivity.
Qed.

Lemma ShouldNotReceive_run (expected : string) (body : fn) (w w1 : World) (got : string) :
  getMessage Quote body false w = (Ok got, w1) ->
  ShouldNotReceive Quote expected body w =
    (Ok tt, flushed (addLines (notReceiveLines w1 expected got) w1)).
Proof.
  intros H. unfold ShouldNotReceive. apply deferred_emitLog.
  rewrite (bind_Ok _ _ _ _ _ (get_run Quote expected _ _ _ _ _ H)).
  cbv beta iota zeta. unfold notReceiveLines.
  destruct (strings.Contains got expected).
  - rewrite (bind_Ok _ _ _ _ _ (printLocation_run Quote w1)), bind_errorF, errorF_run.
    rewrite !addLines_app. reflexivity.
  - rewrite addLines_nil. reflexivity.
Qed.

Lemma ShouldReceiveNothing_run (body : fn) (w w1 : World) (got : string) :
  getMessage Quote body false w = (Ok got, w1) ->
  ShouldReceiveNothing Quote body w =
    (Ok tt, flushed (addLines (nothingLines w1 got) w1)).
Proof.
  intros H. unfold ShouldReceiveNothing. apply deferred_emitLog.
  rewrite (bind_Ok _ _ _ _ _ (get_run Quote "" _ _ _ _ _ H)).
  cbv beta iota zeta. unfold nothingLines.
  destruct (Z.of_nat (String.length got) >? 0).
  - rewrite (bind_Ok _ _ _ _ _ (printLocation_run Quote w1)), errorF_run.
    rewrite !addLines_app. reflexivity.
  - rewrite addLines_nil. reflexivity.
Qed.

(** What [t] hears from an assertion whose cycle returned. *)
Lemma reports_of_run (m : M unit) (body : fn) (expectData : bool) (w w1 : World)
    (got : string) (lines : list string) :
  getMessage Quote body expectData w = (Ok got, w1) ->
  m w = (Ok tt, flushed (addLines lines w1)) ->
  reports (run m w) = (reports w ++ reportOf (logBuf w1 ++ lines))%list.
Proof.
  intros Hget Hm. unfold run. rewrite Hm. cbn [snd]. rewrite reports_flushed_eq.
  destruct (collector_log _ _ _ _ _ _ Hget) as (_ & Hrep & _).
  unfold addLines. wsimpl. rewrite Hrep. reflexivity.
Qed.

(** The verdict when the collector runs without [expectData]. *)
Lemma verdict_quiet (m : M unit) (body : fn) (w w1 : World) (got : string)
    (lines : list string) :
  logBuf w = [] ->
  getMessage Quote body false w = (Ok got, w1) ->
  m w = (Ok tt, flushed (addLines lines w1)) ->
  (passes m w <-> lines = []).
Proof.
  intros Hlog Hget Hm. rewrite (verdict Quote _ _ _ _ _ _ _ Hlog Hget Hm).
  split; [tauto |]. intros H. split; [| exact H]. intros (_ & Hf & _). discriminate.
Qed.

(** [ShouldNotReceiveOnly] passes if and only if the capture differs from
    the given string; when it fails, [t] hears the location and one line
    with the string, and no line with the capture. *)
Theorem ShouldNotReceiveOnly_passes_iff (notExpected : string) (body : fn) (w w1 : World)
    (got : string) :
  logBuf w = [] ->
  getMessage Quote body false w = (Ok got, w1) ->
  (passes (ShouldNotReceiveOnly Quote notExpected body) w <-> got <> notExpected) /\
  (got = notExpected ->
   reports (run (ShouldNotReceiveOnly Quote notExpected body) w) =
     (reports w ++
      [Error [VString (strings.Join
         [locationLine Quote w1; line1 Quote "Expected not to get: %#v" notExpected] nl)]])%list).
Proof.
  intros Hlog Hget.
  pose proof (ShouldNotReceiveOnly_run notExpected _ _ _ _ Hget) as Hrun.
  destruct (collector_log _ _ _ _ _ _ Hget) as (Hl1 & _ & _).
  rewrite collectorLines_false, Hlog in Hl1. cbn [app] in Hl1.
  split.
  - rewrite (verdict_quiet _ _ _ _ _ _ Hlog Hget Hrun). unfold notOnlyLines.
    destruct (String.eqb_spec got notExpected); split; congruence.
  - intros Heq. rewrite (reports_of_run _ _ _ _ _ _ _ Hget Hrun), Hl1.
    unfold notOnlyLines. rewrite (proj2 (String.eqb_eq _ _) Heq). reflexivity.
Qed.

(** [ShouldNotReceive] passes if and only if the given string does not
    occur in the capture; when it fails, [t] hears the location, the string
    and the capture in one report. *)
Theorem ShouldNotReceive_passes_iff (expected : string) (body : fn) (w w1 : World)
    (got : string) :
  logBuf w = [] ->
  getMessage Quote body false w = (Ok got, w1) ->
  (passes (ShouldNotReceive Quote expected body) w <-> ~ Substring expected got) /\
  (Substring expected got ->
   reports (run (ShouldNotReceive Quote expected body) w) =
     (reports w ++
      [Error [VString (strings.Join
         [locationLine Quote w1; line1 Quote "Expected not to find: %#v" expected;
          line1 Quote "But got: %#v" got] nl)]])%list).
Proof.
  intros Hlog Hget.
  pose proof (ShouldNotReceive_run expected _ _ _ _ Hget) as Hrun.
  destruct (collector_log _ _ _ _ _ _ Hget) as (Hl1 & _ & _).
  rewrite collectorLines_false, Hlog in Hl1. cbn [app] in Hl1.
  split.
  - rewrite (verdict_quiet _ _ _ _ _ _ Hlog Hget Hrun), <- Contains_false_spec.
    unfold notReceiveLines.
    destruct (strings.Contains got expected); split; congruence.
  - intros Hsub. apply Contains_spec in Hsub.
    rewrite (reports_of_run _ _ _ _ _ _ _ Hget Hrun), Hl1.
    unfold notReceiveLines. rewrite Hsub. reflexivity.
Qed.

(** [ShouldReceiveNothing] passes if and only if the capture is empty; a
    capture ended by an empty datagram counts as nothing. *)
Theorem ShouldReceiveNothing_passes_iff (body : fn) (w w1 : World) (got : string) :
  logBuf w = [] ->
  getMessage Quote body false w = (Ok got, w1) ->
  (passes (ShouldReceiveNothing Quote body) w <-> got = "") /\
  (got <> "" ->
   reports (run (ShouldReceiveNothing Quote body) w) =
     (reports w ++
      [Error [VString (strings.Join
         [locationLine Quote w1; line1 Quote "Expected no data, but got: %#v" got] nl)]])%list).
Proof.
  intros Hlog Hget.
  pose proof (ShouldReceiveNothing_run _ _ _ _ Hget) as Hrun.
  destruct (collector_log _ _ _ _ _ _ Hget) as (Hl1 & _ & _).
  rewrite collectorLines_false, Hlog in Hl1. cbn [app] in Hl1.
  split.
  - rewrite (verdict_quiet _ _ _ _ _ _ Hlog Hget Hrun). unfold nothingLines.
    destruct got as [| c got]; cbn -[Z.of_nat].
    + split; reflexivity.
    + replace (Z.of_nat (S (String.length got)) >? 0) with true
        by (symmetry; apply Z.gtb_lt; lia).
      split; discriminate.
  - intros Hne. rewrite (reports_of_run _ _ _ _ _ _ _ Hget Hrun), Hl1.
    unfold nothingLines. destruct got as [| c got]; [congruence |].
    replace (Z.of_nat (String.length (String c got)) >? 0) with true
      by (symmetry; apply Z.gtb_lt; cbn [String.length]; lia).
    reflexivity.
Qed.

(** [ShouldNotReceiveAny] passes if and only if none of the given strings
    occurs in the capture; [t] hears at most one report, with the location,
    one line per string that was found, in list order, and the capture. *)
Theorem ShouldNotReceiveAny_passes_iff (unexpected : list string) (body : fn) (w w1 : World)
    (got : string) :
  logBuf w = [] ->
  getMessage Quote body false w = (Ok got, w1) ->
  (passes (ShouldNotReceiveAny Quote unexpected body) w <->
   forall str, In str unexpected -> ~ Substring str got) /\
  reports (run (ShouldNotReceiveAny Quote unexpected body) w) =
    (reports w ++
     reportOf
       (if nonempty (unwanted got unexpected) then
          [locationLine Quote w1] ++
          map (line1 Quote "Expected not to find: %#v") (unwanted got unexpected) ++
          [line1 Quote "But got: %#v" got]
        else []))%list.
Proof.
  intros Hlog Hget.
  pose proof (ShouldNotReceiveAny_run Quote unexpected _ _ _ _ Hget) as Hrun.
  destruct (collector_log _ _ _ _ _ _ Hget) as (Hl1 & _ & _).
  rewrite collectorLines_false, Hlog in Hl1. cbn [app] in Hl1.
  split.
  - rewrite (verdict_quiet _ _ _ _ _ _ Hlog Hget Hrun).
    rewrite anyLines_nil_iff, unwanted_nil_iff. reflexivity.
  - rewrite (reports_of_run _ _ _ _ _ _ _ Hget Hrun), Hl1. reflexivity.
Qed.

End Negations.

Section Starting.

Variable Quote : string -> string.

(** ** Starting the listener *)

(** [start] can bind: the address is set, resolves, and is free. *)
Definition bindable (w : World) : Prop :=
  exists a ra, addr w = Some a /\ resolve w a = inl ra /\
               existsb (String.eqb ra) (busy w) = false.

Lemma bindable_returns (body : fn) (expectData : bool) (w : World) :
  bindable w -> exists msg, result (getMessage Quote body expectData) w = Ok msg.
Proof.
  intros (a & ra & Ha & Hres & Hbusy).
  pose proof (getMessage_cases Quote body expectData w) as Hc.
  destruct (result (getMessage Quote body expectData) w) as [msg | | pmsg |];
    cbn [getMessage_post] in Hc.
  - exists msg. reflexivity.
  - destruct Hc as (err & _ & _ & _ & _ & _ & a' & Ha' & [Hr | (ra' & Hr & Hb)]);
      congruence.
  - destruct Hc as [Hn _]. congruence.
  - contradiction.
Qed.

Lemma returns_bindable (body : fn) (expectData : bool) (w : World) (msg : string) :
  result (getMessage Quote body expectData) w = Ok msg -> bindable w.
Proof.
  intros H. pose proof (getMessage_cases Quote body expectData w) as Hc.
  rewrite H in Hc.
  destruct Hc as (a & ra & _ & _ & _ & _ & Ha & Hres & Hbusy & _).
  exists a, ra. repeat split; assumption.
Qed.

(** A collection cycle returns a capture if and only if the address has
    been set, resolves, and is not in use; whatever the body sends or the
    reads return makes no difference to that. *)
Theorem getMessage_returns_iff_bindable (body : fn) (expectData : bool) (w : World) :
  (exists msg, result (getMessage Quote body expectData) w = Ok msg) <-> bindable w.
Proof.
  split.
  - intros [msg H]. exact (returns_bindable _ _ _ _ H).
  - apply bindable_returns.
Qed.

(** When the address does not resolve, the cycle ends in [t.Fatal] with the
    resolver's error as its only report; the body is never called, no
    socket is opened and the log is left alone. *)
Theorem unresolved_address_is_fatal (body : fn) (expectData : bool) (w : World)
    (a err : string) :
  addr w = Some a -> resolve w a = inr err ->
  result (getMessage Quote body expectData) w = Goexit /\
  reports (run (getMessage Quote body expectData) w) =
    (reports w ++ [Fatal [VError err]])%list /\
  trace (run (getMessage Quote body expectData) w) = trace w /\
  logBuf (run (getMessage Quote body expectData) w) = logBuf w.
Proof.
  intros Ha Hres.
  pose proof (getMessage_cases Quote body expectData w) as Hc.
  destruct (result (getMessage Quote body expectData) w) as [msg | | pmsg |];
    cbn [getMessage_post] in Hc.
  - destruct Hc as (a' & ra & _ & _ & _ & _ & Ha' & Hr & _). congruence.
  - destruct Hc as (err' & Hrep & Htr & Hlog & _ & _ & a' & Ha' & [Hr | (ra' & Hr & _)]);
      [| congruence].
    assert (err' = err) by congruence. subst err'.
    repeat split; assumption.
  - destruct Hc as [Hn _]. congruence.
  - contradiction.
Qed.

(** When the resolved address is in use, the cycle ends in [t.Fatal] with
    one report; the body is never called and no socket is opened. *)
Theorem busy_address_is_fatal (body : fn) (expectData : bool) (w : World) (a ra : string) :
  addr w = Some a -> resolve w a = inl ra -> In ra (busy w) ->
  result (getMessage Quote body expectData) w = Goexit /\
  (exists err, reports (run (getMessage Quote body expectData) w) =
                 (reports w ++ [Fatal [VError err]])%list) /\
  trace (run (getMessage Quote body expectData) w) = trace w /\
  bodyCalls (trace (run (getMessage Quote body expectData) w)) = bodyCalls (trace w).
Proof.
  intros Ha Hres Hin.
  pose proof (getMessage_cases Quote body expectData w) as Hc.
  destruct (result (getMessage Quote body expectData) w) as [msg | | pmsg |];
    cbn [getMessage_post] in Hc.
  - destruct Hc as (a' & ra' & _ & _ & _ & _ & Ha' & Hr & Hb & _).
    assert (ra' = ra) by congruence. subst ra'.
    exfalso. exact (existsb_eqb_false _ _ Hb Hin).
  - destruct Hc as (err' & Hrep & Htr & _).
    split; [reflexivity |]. split; [exists err'; exact Hrep |].
    split; [exact Htr | rewrite Htr; reflexivity].
  - destruct Hc as [Hn _]. congruence.
  - contradiction.
Qed.

(** Before [SetAddr] has run, a cycle panics on the nil address and changes
    nothing: no report, no socket, no call of the body. *)
Theorem unset_address_panics (body : fn) (expectData : bool) (w : World) :
  addr w = None ->
  (exists msg, result (getMessage Quote body expectData) w = Panic msg) /\
  run (getMessage Quote body expectData) w = w.
Proof.
  intros Ha.
  pose proof (getMessage_cases Quote body expectData w) as Hc.
  destruct (result (getMessage Quote body expectData) w) as [msg | | pmsg |];
    cbn [getMessage_post] in Hc.
  - destruct Hc as (a' & ra & _ & _ & _ & _ & Ha' & _). congruence.
  - destruct Hc as (err' & _ & _ & _ & _ & _ & a' & Ha' & _). congruence.
  - destruct Hc as [_ Hw]. split; [exists pmsg; reflexivity | exact Hw].
  - contradiction.
Qed.

(** A cycle that returned leaves the address free and the configuration as
    it was, so the next cycle, with any body, returns as well. *)
Theorem cycles_follow_one_another (body1 body2 : fn) (e1 e2 : bool) (w w1 : World)
    (msg1 : string) :
  getMessage Quote body1 e1 w = (Ok msg1, w1) ->
  busy w1 = busy w /\ addr w1 = addr w /\ Timeout w1 = Timeout w /\
  exists msg2, result (getMessage Quote body2 e2) w1 = Ok msg2.
Proof.
  intros Hget. pose proof (getMessage_Ok _ _ _ _ _ _ Hget) as Hp.
  destruct Hp as (a & ra & _ & _ & _ & _ & Ha & Hres & Hbusy & _ & _ & _ & _ & _ & _ & _ & _ &
                  Hb1 & _ & Hcfg).
  destruct Hcfg as (Haddr & Hto & Hresolve & _).
  repeat split; try assumption.
  apply bindable_returns. exists a, ra.
  rewrite Haddr, Hresolve, Hb1. repeat split; assumption.
Qed.

End Starting.

Section EveryAssertion.

Variable Quote : string -> string.

(** ** What all assertions share *)

(** A computation that only adds lines to the log. *)
Definition LogOnly {A} (m : M A) : Prop :=
  forall w, exists a lines, m w = (Ok a, addLines lines w).

Lemma LogOnly_ret {A} (a : A) : LogOnly (ret a).
Proof. intros w. exists a, []. rewrite addLines_nil. reflexivity. Qed.

Lemma LogOnly_errorF (format : string) (args : list value) :
  LogOnly (errorF Quote format args).
Proof. intros w. exists tt. eexists. apply errorF_run. Qed.

Lemma LogOnly_printLocation : LogOnly (printLocation Quote).
Proof. intros w. exists tt. eexists. apply printLocation_run. Qed.

Lemma LogOnly_bind {A B} (m : M A) (k : A -> M B) :
  LogOnly m -> (forall a, LogOnly (k a)) -> LogOnly (bind m k).
Proof.
  intros Hm Hk w. destruct (Hm w) as (a & l1 & H1).
  destruct (Hk a (addLines l1 w)) as (b & l2 & H2).
  exists b, (l1 ++ l2)%list. rewrite (bind_Ok _ _ _ _ _ H1), H2, addLines_app. reflexivity.
Qed.

Lemma LogOnly_forRange (test : string -> bool) (format : string) (l : list string)
    (failed : bool) :
  LogOnly (forRange l (want Quote test format) failed).
Proof. intros w. eexists. eexists. apply forRange_want. Qed.

Ltac logonly :=
  repeat first
    [ apply LogOnly_ret | apply LogOnly_errorF | apply LogOnly_printLocation
    | apply LogOnly_forRange | apply LogOnly_bind
    | match goal with
      | |- forall _, LogOnly _ => intro
      | |- LogOnly (if ?b then _ else _) => destruct b
      end ].

(** An assertion: a deferred [emitLog] around one collection cycle and
    checks that only log. *)
Definition Assertion (expectData : bool) (body : fn) (op : M unit) : Prop :=
  exists k : string -> M unit,
    (forall got, LogOnly (k got)) /\
    forall w, op w = defer emitLog (bind (getMessage Quote body expectData) k) w.

Lemma bind_get (match_ : string) (body : fn) (expectData : bool)
    (k : string * bool * bool -> M unit) (w : World) :
  bind (get Quote match_ body expectData) k w =
  bind (getMessage Quote body expectData)
    (fun got => k (got, String.eqb got match_, strings.Contains got match_)) w.
Proof.
  unfold get, bind, ret.
  destruct (getMessage Quote body expectData w) as [[got | | msg |] w1]; reflexivity.
Qed.

Lemma defer_ext {A} (d : M unit) (m1 m2 : M A) (w : World) :
  m1 w = m2 w -> defer d m1 w = defer d m2 w.
Proof. intros H. unfold defer. rewrite H. reflexivity. Qed.

(** The eight assertions of the package with the flag each passes to the
    collector. *)
Definition assertions (s : string) (l1 l2 : list string) (body : fn) : list (bool * M unit) :=
  [ (true, ShouldReceiveOnly Quote s body);
    (false, ShouldNotReceiveOnly Quote s body);
    (false, ShouldReceive Quote s body);
    (false, ShouldNotReceive Quote s body);
    (false, ShouldReceiveNothing Quote body);
    (true, ShouldReceiveAll Quote l1 body);
    (false, ShouldNotReceiveAny Quote l1 body);
    (true, ShouldReceiveAllAndNotReceiveAny Quote l1 l2 body) ].

Lemma assertions_are (s : string) (l1 l2 : list string) (body : fn) (flag : bool)
    (op : M unit) :
  In (flag, op) (assertions s l1 l2 body) -> Assertion flag body op.
Proof.
  intros Hin. cbn [assertions In] in Hin.
  repeat (destruct Hin as [Heq | Hin]; [injection Heq as <- <- | ]); [.. | contradiction].
  - eexists. split; [| intros w; apply defer_ext; apply bind_get].
    intros got. cbv beta iota zeta. logonly.
  - eexists. split; [| intros w; apply defer_ext; apply bind_get].
    intros got. cbv beta iota zeta. logonly.
  - eexists. split; [| intros w; apply defer_ext; apply bind_get].
    intros got. cbv beta iota zeta. logonly.
  - eexists. split; [| intros w; apply defer_ext; apply bind_get].
    intros got. cbv beta iota zeta. logonly.
  - eexists. split; [| intros w; apply defer_ext; apply bind_get].
    intros got. cbv beta iota zeta. logonly.
  - eexists. split; [| intros w; reflexivity]. cbv beta.
    intros got. rewrite wantFound_want. logonly.
  - eexists. split; [| intros w; reflexivity]. cbv beta.
    intros got. rewrite wantAbsent_want. logonly.
  - eexists. split; [| intros w; reflexivity]. cbv beta.
    intros got. rewrite wantFound_want, wantAbsent_want. logonly.
Qed.

(** The world an assertion leaves: the world of its cycle, with the lines
    of its checks added and the log flushed. *)
Lemma assertion_world (flag : bool) (body : fn) (op : M unit) (w : World) :
  Assertion flag body op ->
  exists lines,
    run op w = flushed (addLines lines (run (getMessage Quote body flag) w)) /\
    ((forall got, result (getMessage Quote body flag) w <> Ok got) -> lines = []).
Proof.
  intros (k & Hk & Hop).
  pose proof (getMessage_returns Quote body flag w) as Hret.
  unfold run, result in *. rewrite Hop. unfold defer, bind.
  destruct (getMessage Quote body flag w) as [[got | | msg |] w1]; cbn [fst snd] in *.
  - destruct (Hk got w1) as (a & lines & Hrun). rewrite Hrun, emitLog_run.
    exists lines. split; [reflexivity |]. intros H. exfalso. exact (H got eq_refl).
  - rewrite emitLog_run. exists []. rewrite addLines_nil. split; reflexivity.
  - rewrite emitLog_run. exists []. rewrite addLines_nil. split; reflexivity.
  - exfalso. apply Hret. reflexivity.
Qed.

(** Whatever happens, an assertion speaks to [t] at most twice: a [Fatal]
    when the listener cannot start, then at most one [Error] that carries,
    joined, the lines already in the log on entry followed by the lines of
    this call.  It never calls [Errorf], and it leaves the log empty. *)
Theorem assertion_reports_once (s : string) (l1 l2 : list string) (body : fn)
    (flag : bool) (op : M unit) (w : World) :
  In (flag, op) (assertions s l1 l2 body) ->
  exists fatal lines,
    reports (run op w) = (reports w ++ fatal ++ reportOf (logBuf w ++ lines))%list /\
    (fatal = [] \/ exists err, fatal = [Fatal [VError err]]) /\
    logBuf (run op w) = [].
Proof.
  intros Hin. apply assertions_are in Hin.
  destruct (assertion_world _ _ _ w Hin) as (lines & Hrun & Hnil).
  pose proof (getMessage_cases Quote body flag w) as Hc.
  rewrite Hrun, reports_flushed_eq, logBuf_flushed. unfold addLines. wsimpl.
  destruct (result (getMessage Quote body flag) w) as [got | | pmsg |] eqn:Hres;
    cbn [getMessage_post] in Hc.
  - destruct Hc as (a & ra & evs & err & taken & c' & _ & _ & _ & _ & _ & _ & _ & _ &
                    Hlog & _ & _ & _ & Hrep & _).
    exists [], (collectorLines Quote flag (Z.of_nat (String.length got)) err ++ lines)%list.
    rewrite Hrep, Hlog, <- app_assoc. cbn [app]. repeat split. left. reflexivity.
  - destruct Hc as (err & Hrep & _ & Hlog & _).
    rewrite (Hnil ltac:(discriminate)).
    exists [Fatal [VError err]], [].
    rewrite Hrep, Hlog, <- app_assoc. repeat split. right. exists err. reflexivity.
  - destruct Hc as [_ Hw]. rewrite (Hnil ltac:(discriminate)), Hw.
    exists [], []. repeat split. left. reflexivity.
  - contradiction.
Qed.

(** An assertion touches the socket only through its one collection cycle:
    its socket events are those of the cycle, the body is called at most
    once, and the address, the timeout and the set of busy addresses are
    left as they were. *)
Theorem assertion_runs_one_cycle (s : string) (l1 l2 : list string) (body : fn)
    (flag : bool) (op : M unit) (w : World) :
  In (flag, op) (assertions s l1 l2 body) ->
  trace (run op w) = trace (run (getMessage Quote body flag) w) /\
  (bodyCalls (trace (run op w)) <= bodyCalls (trace w) + 1)%nat /\
  addr (run op w) = addr w /\ Timeout (run op w) = Timeout w /\
  busy (run op w) = busy w.
Proof.
  intros Hin. apply assertions_are in Hin.
  destruct (assertion_world _ _ _ w Hin) as (lines & Hrun & _).
  pose proof (getMessage_cases Quote body flag w) as Hc.
  assert (Hfl : forall w0, addr (flushed w0) = addr w0 /\ Timeout (flushed w0) = Timeout w0 /\
                           busy (flushed w0) = busy w0).
  { intros w0. unfold flushed. destruct (logBuf w0); repeat split. }
  destruct (Hfl (addLines lines (run (getMessage Quote body flag) w))) as (Fa & Ft & Fb).
  rewrite Hrun, trace_flushed, Fa, Ft, Fb. unfold addLines. wsimpl.
  split; [reflexivity |].
  destruct (result (getMessage Quote body flag) w) as [got | | pmsg |];
    cbn [getMessage_post] in Hc.
  - destruct Hc as (a & ra & evs & err & taken & c' & _ & _ & _ & Htr & Hch & _ & _ & _ &
                    _ & _ & _ & Hb & _ & Hcfg).
    destruct Hcfg as (Ha & Ht & _).
    rewrite Htr, !bodyCalls_app, (Chain_bodyCalls _ _ _ Hch). cbn.
    repeat split; try assumption. lia.
  - destruct Hc as (err & _ & Htr & _ & Hb & (Ha & Ht & _) & _).
    rewrite Htr. repeat split; try assumption. lia.
  - destruct Hc as [_ Hw]. rewrite Hw. repeat split. lia.
  - contradiction.
Qed.

End EveryAssertion.

Section Relations.

Variable Quote : string -> string.

(** ** How the assertions relate *)

Lemma Substring_refl (s : string) : Substring s s.
Proof. exists "", "". cbn. rewrite append_nil_r. reflexivity. Qed.

(** On one capture, exactly one of [ShouldReceive] and [ShouldNotReceive]
    passes for a given string. *)
Theorem ShouldReceive_or_ShouldNotReceive (s : string) (body : fn) (w w1 : World)
    (got : string) :
  logBuf w = [] ->
  getMessage Quote body false w = (Ok got, w1) ->
  (passes (ShouldReceive Quote s body) w <-> ~ passes (ShouldNotReceive Quote s body) w) /\
  (passes (ShouldReceive Quote s body) w \/ passes (ShouldNotReceive Quote s body) w).
Proof.
  intros Hlog Hget.
  rewrite (verdict_quiet Quote _ _ _ _ _ _ Hlog Hget (ShouldReceive_run Quote s _ _ _ _ Hget)).
  rewrite (verdict_quiet Quote _ _ _ _ _ _ Hlog Hget (ShouldNotReceive_run Quote s _ _ _ _ Hget)).
  unfold receiveLines, notReceiveLines.
  destruct (strings.Contains got s); split;
    try (split; [intros _ H; discriminate | reflexivity]);
    try (split; [discriminate | intros H; exfalso; apply H; reflexivity]).
  - left. reflexivity.
  - right. reflexivity.
Qed.

(** The strict assertion is the strongest: where [ShouldReceiveOnly]
    passes, [ShouldReceive] passes for the same string and body, and
    [ShouldNotReceiveOnly] and [ShouldNotReceive] do not. *)
Theorem ShouldReceiveOnly_implies_ShouldReceive (s : string) (body : fn) (w : World) :
  logBuf w = [] ->
  passes (ShouldReceiveOnly Quote s body) w ->
  passes (ShouldReceive Quote s body) w /\
  ~ passes (ShouldNotReceiveOnly Quote s body) w /\
  ~ passes (ShouldNotReceive Quote s body) w.
Proof.
  intros Hlog Hp.
  destruct (getMessage_flag Quote body w) as [extra Hflag].
  destruct (getMessage Quote body false w) as [[got | | msg |] wf] eqn:Hf;
    cbn [fst snd] in Hflag.
  - apply (verdict Quote _ _ _ _ _ _ _ Hlog Hflag
             (ShouldReceiveOnly_run Quote s _ _ _ _ Hflag)) in Hp.
    destruct Hp as [_ Hlines]. unfold onlyLines in Hlines.
    destruct (String.eqb_spec got s) as [-> | Hne]; [| discriminate].
    rewrite (verdict_quiet Quote _ _ _ _ _ _ Hlog Hf (ShouldReceive_run Quote s _ _ _ _ Hf)).
    rewrite (verdict_quiet Quote _ _ _ _ _ _ Hlog Hf
               (ShouldNotReceiveOnly_run Quote s _ _ _ _ Hf)).
    rewrite (verdict_quiet Quote _ _ _ _ _ _ Hlog Hf (ShouldNotReceive_run Quote s _ _ _ _ Hf)).
    unfold receiveLines, notOnlyLines, notReceiveLines.
    rewrite String.eqb_refl, (proj2 (Contains_spec s s) (Substring_refl s)).
    repeat split; discriminate.
  - exfalso. revert Hp. apply aborted_assertion.
    intros a. unfold get. rewrite (bind_Goexit _ _ _ _ Hflag). discriminate.
  - exfalso. revert Hp. apply aborted_assertion.
    intros a. unfold get. rewrite (bind_Panic _ _ _ _ _ Hflag). discriminate.
  - exfalso. pose proof (getMessage_returns Quote body false w) as H.
    unfold result in H. rewrite Hf in H. apply H. reflexivity.
Qed.

End Relations.

Section Synchronous.

Variable Quote : string -> string.

(** ** A body that has sent everything before it returns *)

Lemma ReadFrom_delivers (p : list byte) (w : World) (c : UDPConn) (d : Z)
    (pk : packet) (rest : list packet) :
  listener w = Some c -> closed c = false -> deadline c = Some d ->
  queue c = pk :: rest -> now w < d -> arrival pk <= now w ->
  ReadFrom p w =
    (Ok (Z.min (Z.of_nat (List.length (payload pk))) (Z.of_nat (List.length p)), None,
         copyInto p (payload pk)),
     set_trace
       (trace w ++
        [EvRead (Z.of_nat (List.length p))
           (Z.min (Z.of_nat (List.length (payload pk))) (Z.of_nat (List.length p))) None])%list
       (set_now (now w)
          (set_listener
             (Some {| laddr := laddr c; deadline := deadline c;
                      closed := closed c; queue := rest |}) w))).
Proof.
  intros Hl Hc Hd Hq Hnow Harr. unfold ReadFrom. rewrite Hl, Hc, Hd, Hq.
  replace (d <=? now w) with false by (symmetry; apply Z.leb_gt; lia).
  replace (arrival pk <? d) with true by (symmetry; apply Z.ltb_lt; lia).
  replace (Z.max (now w) (arrival pk)) with (now w) by lia.
  reflexivity.
Qed.

Lemma ReadFrom_idle (p : list byte) (w : World) (c : UDPConn) (d : Z) :
  listener w = Some c -> closed c = false -> deadline c = Some d -> queue c = [] ->
  exists t,
    ReadFrom p w =
      (Ok (0, Some (timeoutError c), p),
       set_trace (trace w ++ [EvRead (Z.of_nat (List.length p)) 0 (Some (timeoutError c))])%list
         (set_now t w)).
Proof.
  intros Hl Hc Hd Hq. unfold ReadFrom. rewrite Hl, Hc, Hd, Hq.
  eexists. reflexivity.
Qed.

(** How a queue ends for the loop: with nothing more, or with an empty
    datagram that is already there. *)
Definition endsAt (t : Z) (rest : list packet) : Prop :=
  rest = [] \/ exists pk r, rest = pk :: r /\ arrival pk <= t /\ payload pk = [].

(** The lines the loop logs on such a queue. *)
Definition idleLines (expectData : bool) (rest : list packet) (c : UDPConn) (bufLen : Z)
  : list string :=
  match rest with
  | [] => collectorLines Quote expectData bufLen (Some (timeoutError c))
  | _ => []
  end.

Lemma readLoop_sync (expectData : bool) (rest : list packet) (q1 : list packet) :
  forall (fuel : nat) (message : list byte) (bufLen : Z) (w : World) (c : UDPConn),
    listener w = Some c -> closed c = false ->
    queue c = (q1 ++ rest)%list ->
    Forall (fun pk => arrival pk <= now w /\ payload pk <> []) q1 ->
    endsAt (now w) rest ->
    ((q1 ++ rest)%list <> [] -> 0 < Timeout w) ->
    Z.of_nat (List.length message) = bufSize ->
    0 <= bufLen <= bufSize ->
    (Z.to_nat (bufSize - bufLen) < fuel)%nat ->
    exists message' bufLen' w',
      readLoop Quote fuel expectData message bufLen w = (Ok (message', bufLen'), w') /\
      firstn (Z.to_nat bufLen') message' =
        (firstn (Z.to_nat bufLen) message ++
         firstn (Z.to_nat (bufSize - bufLen)) (payloads q1))%list /\
      (bufLen' = 0 -> bufLen = 0 /\ q1 = []) /\
      logBuf w' = (logBuf w ++ idleLines expectData rest c bufLen')%list.
Proof.
  induction q1 as [| pk q1 IH];
    intros fuel message bufLen w c Hl Hc Hq Hall Hend Hto Hlen Hb Hfuel;
    (destruct fuel as [| fuel]; [lia |]);
    cbn [readLoop];
    unfold Now, SetReadDeadline, gets, modify, bind at 1 2 3;
    rewrite Hl, Hc;
    replace ((bufLen <? 0) || (bufLen >? Z.of_nat (List.length message))) with false
      by (symmetry; apply orb_false_iff; split; lia);
    set (p := skipn (Z.to_nat bufLen) message);
    assert (Hp : Z.of_nat (List.length p) = bufSize - bufLen)
      by (unfold p; rewrite length_skipn; lia);
    set (c1 := {| laddr := laddr c; deadline := Some (now w + Timeout w);
                  closed := false; queue := queue c |});
    set (w1 := set_listener (Some c1) w).
  - (* everything expected has been read *)
    cbn [app] in Hq, Hto.
    destruct Hend as [-> | (pk & r & -> & Harr & Hempty)].
    + destruct (ReadFrom_idle p w1 c1 (now w + Timeout w) eq_refl eq_refl eq_refl Hq)
        as [t Hr].
      rewrite (bind_Ok _ _ _ _ _ Hr). cbn [Z.eqb].
      unfold p at 1. rewrite firstn_skipn.
      exists message, bufLen.
      unfold idleLines, collectorLines, errorF, modify, bind, ret.
      change (timeoutError c1) with (timeoutError c).
      destruct ((bufLen =? 0) && expectData); eexists;
        (split; [reflexivity |]); subst w1; wsimpl;
        unfold payloads; cbn [map List.concat]; rewrite firstn_nil, ?app_nil_r;
        repeat split; try reflexivity; try assumption.
    + assert (Hpos : 0 < Timeout w) by (apply Hto; discriminate).
      rewrite (bind_Ok _ _ _ _ _
                 (ReadFrom_delivers p w1 c1 (now w + Timeout w) pk r eq_refl eq_refl eq_refl
                    Hq ltac:(subst w1; wsimpl; lia) Harr)).
      rewrite Hempty. cbn [List.length Z.of_nat].
      replace (Z.min 0 (Z.of_nat (List.length p))) with 0 by lia. cbn [Z.eqb].
      assert (Hcopy : copyInto p [] = p).
      { unfold copyInto. rewrite firstn_nil. reflexivity. }
      rewrite Hcopy. unfold p at 2. rewrite firstn_skipn.
      exists message, bufLen. eexists. split; [reflexivity |].
      subst w1; wsimpl. unfold payloads, idleLines; cbn [map List.concat].
      rewrite firstn_nil, !app_nil_r. repeat split; try reflexivity; assumption.
  - (* the next datagram is there and holds data *)
    assert (Hpos : 0 < Timeout w) by (apply Hto; discriminate).
    inversion Hall as [| pk' q' [Harr Hdata] Hall' ]; subst pk' q'.
    cbn [app] in Hq.
    rewrite (bind_Ok _ _ _ _ _
               (ReadFrom_delivers p w1 c1 (now w + Timeout w) pk (q1 ++ rest) eq_refl eq_refl
                  eq_refl Hq ltac:(subst w1; wsimpl; lia) Harr)).
    set (n := Z.min (Z.of_nat (List.length (payload pk))) (Z.of_nat (List.length p))).
    set (message1 := (firstn (Z.to_nat bufLen) message ++ copyInto p (payload pk))%list).
    set (c2 := {| laddr := laddr c1; deadline := deadline c1;
                  closed := closed c1; queue := (q1 ++ rest)%list |}).
    set (w2 := set_trace _ _).
    destruct (buffer_step message (payload pk) (Z.to_nat bufLen) ltac:(lia))
      as [Hlen1 Hpre]. fold p in Hlen1, Hpre. fold message1 in Hlen1, Hpre.
    assert (Hn : Z.to_nat n =
                 Nat.min (List.length (payload pk)) (List.length p)) by (unfold n; lia).
    rewrite <- Hn in Hpre.
    assert (Hlp : (0 < List.length (payload pk))%nat)
      by (destruct (payload pk); [congruence | cbn; lia]).
    destruct (n =? 0) eqn:Hz.
    + (* the buffer is full *)
      apply Z.eqb_eq in Hz.
      assert (Hfull : bufLen = bufSize) by (unfold n in Hz; lia).
      exists message1, bufLen, w2. split; [reflexivity |].
      subst w2 w1; wsimpl.
      rewrite Hz in Hpre.
      replace (Z.to_nat bufLen + Z.to_nat 0)%nat with (Z.to_nat bufLen) in Hpre by lia.
      rewrite Hpre.
      replace (List.length p) with 0%nat by lia.
      replace (Z.to_nat (bufSize - bufLen)) with 0%nat by lia.
      rewrite !firstn_0.
      split; [reflexivity |]. split.
      * intros H0. pose proof bufSize_eq. lia.
      * unfold idleLines, collectorLines.
        replace (bufLen =? 0) with false
          by (symmetry; apply Z.eqb_neq; pose proof bufSize_eq; lia).
        cbn [andb]. destruct rest; rewrite app_nil_r; reflexivity.
    + apply Z.eqb_neq in Hz.
      assert (Hnpos : 0 < n <= bufSize - bufLen) by (unfold n in *; lia).
      destruct (IH fuel message1 (bufLen + n) w2 c2) as
        (message' & bufLen' & w' & Hrun & Hcont & Hzero & Hlog);
        try reflexivity; try lia; try assumption; try (intros _; exact Hpos).
      exists message', bufLen', w'. split; [exact Hrun |].
        split; [| split].
        -- rewrite Hcont.
           replace (Z.to_nat (bufLen + n)) with (Z.to_nat bufLen + Z.to_nat n)%nat by lia.
           rewrite Hpre, <- app_assoc. f_equal.
           unfold payloads; cbn [map List.concat].
           replace (Z.to_nat (bufSize - (bufLen + n)))
             with (Z.to_nat (bufSize - bufLen) - Z.to_nat n)%nat by lia.
           replace (List.length p) with (Z.to_nat (bufSize - bufLen)) by lia.
           apply firstn_stream. lia.
        -- intros H0. destruct (Hzero H0) as [Hbad _]. lia.
        -- rewrite Hlog. reflexivity.
Qed.

Lemma payloads_stamped (t : Z) (l : list datagram) :
  payloads (map (fun d => {| arrival := t + delay d; payload := data d |}) l) =
  List.concat (map data l).
Proof. unfold payloads. rewrite map_map. reflexivity. Qed.

(** The body's datagrams are all sent by the time it returns, and none is
    empty. *)
Definition sentInTime (body : fn) (l : list datagram) : Prop :=
  Forall (fun d => delay d <= elapsed body /\ data d <> []) l.

(** What follows them: nothing, or an empty datagram sent in time and
    whatever comes after it. *)
Definition thenEnds (body : fn) (rest : list datagram) : Prop :=
  rest = [] \/ exists d r, rest = d :: r /\ delay d <= elapsed body /\ data d = [].

Definition sentBytes (l : list datagram) : string :=
  string_of_list_ascii (firstn (Z.to_nat bufSize) (List.concat (map data l))).

Lemma getMessage_sync (body : fn) (expectData : bool) (w : World) (a ra : string)
    (l1 rest : list datagram) :
  addr w = Some a -> resolve w a = inl ra ->
  existsb (String.eqb ra) (busy w) = false ->
  sends body = (l1 ++ rest)%list ->
  sentInTime body l1 -> thenEnds body rest ->
  (sends body <> [] -> 0 < Timeout w) ->
  exists w1,
    getMessage Quote body expectData w = (Ok (sentBytes l1), w1) /\
    (sentBytes l1 = "" -> l1 = []) /\
    logBuf w1 =
      (logBuf w ++
       match rest with
       | [] =>
           collectorLines Quote expectData (Z.of_nat (String.length (sentBytes l1)))
             (Some ("read udp " ++ ra ++ ": i/o timeout")%string)
       | _ => []
       end)%list.
Proof.
  intros Ha Hres Hbusy Hsends Hin Hend Hto.
  unfold getMessage.
  pose proof (start_cases w) as Hs. rewrite Ha, Hres, Hbusy in Hs.
  rewrite (bind_Ok _ _ _ _ _ Hs).
  set (stamp := fun d => {| arrival := now w + delay d; payload := data d |}).
  set (c0 := {| laddr := ra; deadline := None; closed := false;
                queue := stamped (now w) body |}).
  set (w2 := set_trace (trace (started ra w) ++ [EvBody])%list
               (set_now (now w + elapsed body) (set_listener (Some c0) (started ra w)))).
  assert (Hcall : call body (started ra w) = (Ok tt, w2)) by reflexivity.
  assert (Hrep : Z.of_nat (List.length (repeat Ascii.zero (Z.to_nat bufSize))) = bufSize)
    by (rewrite repeat_length; rewrite bufSize_eq; reflexivity).
  assert (Hq : queue c0 = (map stamp l1 ++ map stamp rest)%list).
  { unfold c0, stamped. cbn [queue]. rewrite Hsends, map_app. reflexivity. }
  destruct (readLoop_spec Quote (S (Z.to_nat bufSize)) expectData
              (repeat Ascii.zero (Z.to_nat bufSize)) 0 w2 c0)
    as (message' & bufLen' & w3 & c3 & evs & err & taken &
        Hrun & Hbd & Hlen' & _ & _ & Hl3 & Hc3 & _);
    try reflexivity; try assumption; try (rewrite bufSize_eq; lia).
  destruct (readLoop_sync expectData (map stamp rest) (map stamp l1)
              (S (Z.to_nat bufSize)) (repeat Ascii.zero (Z.to_nat bufSize)) 0 w2 c0)
    as (message2 & bufLen2 & w4 & Hrun2 & Hcont & Hzero & Hlog);
    try reflexivity; try assumption; try (rewrite bufSize_eq; lia).
  { apply Forall_map. eapply Forall_impl; [| exact Hin].
    intros d [Hd Hdata]. unfold w2, stamp, started. cbn. split; [lia | exact Hdata]. }
  { destruct Hend as [-> | (d & r & -> & Hd & Hdata)]; [left; reflexivity |].
    right. exists (stamp d), (map stamp r). unfold w2, stamp, started. cbn.
    repeat split; [lia | exact Hdata]. }
  { intros Hne. apply Hto. rewrite Hsends. intros Hnil.
    apply Hne. rewrite <- map_app, Hnil. reflexivity. }
  rewrite Hrun in Hrun2. injection Hrun2 as <- <- <-.
  replace (bufSize - 0) with bufSize in Hcont by lia.
  change (Z.to_nat 0) with 0%nat in Hcont. rewrite firstn_0 in Hcont. cbn [app] in Hcont.
  unfold stamp in Hcont. rewrite payloads_stamped in Hcont.
  assert (Hmsg : string_of_list_ascii (firstn (Z.to_nat bufLen') message') = sentBytes l1).
  { unfold sentBytes. rewrite Hcont. reflexivity. }
  assert (Hlenmsg : Z.of_nat (String.length (sentBytes l1)) = bufLen').
  { rewrite <- Hmsg, string_of_list_ascii_length, length_firstn. lia. }
  match goal with
  | |- context [defer stop ?inner] =>
      assert (Hinner : inner (started ra w) = (Ok (sentBytes l1), w3))
  end.
  { rewrite (bind_Ok _ _ _ _ _ Hcall), (bind_Ok _ _ _ _ _ Hrun).
    cbv beta iota.
    replace ((bufLen' <? 0) || (bufLen' >? Z.of_nat (List.length message'))) with false
      by (symmetry; apply orb_false_iff; split; lia).
    unfold ret. rewrite Hmsg. reflexivity. }
  rewrite (defer_Ok _ _ _ _ _ _ _ Hinner (stop_open w3 c3 Hl3 Hc3)).
  eexists. split; [reflexivity |]. split.
  - intros Hemp. rewrite Hemp in Hlenmsg. cbn in Hlenmsg.
    destruct (Hzero (eq_sym Hlenmsg)) as [_ Hnil].
    destruct l1; [reflexivity | discriminate].
  - unfold stopped. wsimpl. rewrite Hlog, Hlenmsg.
    unfold idleLines. destruct rest; reflexivity.
Qed.

Lemma sentBytes_eq (l : list datagram) :
  sentBytes l = string_of_list_ascii (firstn (Z.to_nat 32768) (List.concat (map data l))).
Proof. unfold sentBytes. rewrite bufSize_eq. reflexivity. Qed.

(** When every datagram of the body is sent before the body returns and
    none is empty, and the timeout is positive, the capture is the
    datagrams' bytes joined in the order sent, cut after 32768 bytes; up to
    that size nothing is lost and nothing is added. *)
Theorem synchronous_body_is_captured (body : fn) (expectData : bool) (w : World) :
  bindable w -> 0 < Timeout w ->
  Forall (fun d => delay d <= elapsed body /\ data d <> []) (sends body) ->
  result (getMessage Quote body expectData) w =
    Ok (string_of_list_ascii
          (firstn (Z.to_nat 32768) (List.concat (map data (sends body))))) /\
  (Z.of_nat (List.length (List.concat (map data (sends body)))) <= 32768 ->
   result (getMessage Quote body expectData) w =
     Ok (string_of_list_ascii (List.concat (map data (sends body))))).
Proof.
  intros (a & ra & Ha & Hres & Hbusy) Hto Hall.
  destruct (getMessage_sync body expectData w a ra (sends body) [] Ha Hres Hbusy)
    as (w1 & Hget & _); try assumption.
  - rewrite app_nil_r. reflexivity.
  - left. reflexivity.
  - intros _. exact Hto.
  - unfold result. rewrite Hget. cbn [fst]. rewrite sentBytes_eq.
    split; [reflexivity |]. intros Hle. rewrite firstn_all2; [reflexivity | lia].
Qed.

(** An empty datagram ends the capture: the datagrams sent after it are
    not read in this cycle, whatever they hold, and the collector logs no
    failure even with [expectData] set and nothing captured. *)
Theorem empty_datagram_ends_capture (body : fn) (expectData : bool) (w : World)
    (before after : list datagram) (d : datagram) :
  bindable w -> 0 < Timeout w ->
  sends body = (before ++ d :: after)%list ->
  Forall (fun d => delay d <= elapsed body /\ data d <> []) before ->
  delay d <= elapsed body -> data d = [] ->
  result (getMessage Quote body expectData) w =
    Ok (string_of_list_ascii
          (firstn (Z.to_nat 32768) (List.concat (map data before)))) /\
  logBuf (run (getMessage Quote body expectData) w) = logBuf w.
Proof.
  intros (a & ra & Ha & Hres & Hbusy) Hto Hsends Hall Hd Hdata.
  destruct (getMessage_sync body expectData w a ra before (d :: after) Ha Hres Hbusy)
    as (w1 & Hget & _ & Hlog); try assumption.
  - right. exists d, after. repeat split; assumption.
  - intros _. exact Hto.
  - unfold result, run. rewrite Hget. cbn [fst snd]. rewrite sentBytes_eq, Hlog, app_nil_r.
    split; reflexivity.
Qed.

(** With a body that sends nothing, whatever the timeout:
    [ShouldReceiveNothing] passes, and no assertion that runs the collector
    with [expectData] can pass, whatever it is asked to expect. *)
Theorem silent_body_verdicts (body : fn) (w : World) :
  bindable w -> logBuf w = [] -> sends body = [] ->
  passes (ShouldReceiveNothing Quote body) w /\
  (forall s, ~ passes (ShouldReceiveOnly Quote s body) w) /\
  (forall l, ~ passes (ShouldReceiveAll Quote l body) w) /\
  (forall l1 l2, ~ passes (ShouldReceiveAllAndNotReceiveAny Quote l1 l2 body) w).
Proof.
  intros (a & ra & Ha & Hres & Hbusy) Hlog Hsends.
  assert (Hsync : forall e, exists w1,
             getMessage Quote body e w = (Ok "", w1) /\
             logBuf w1 =
               collectorLines Quote e 0 (Some ("read udp " ++ ra ++ ": i/o timeout"))).
  { intros e.
    destruct (getMessage_sync body e w a ra [] [] Ha Hres Hbusy)
      as (w1 & Hget & _ & Hl); try assumption.
    - constructor.
    - left. reflexivity.
    - intros H. congruence.
    - exists w1. unfold sentBytes in *. cbn [map List.concat] in *.
      rewrite firstn_nil in *. cbn [string_of_list_ascii String.length Z.of_nat] in *.
      rewrite Hlog in Hl. split; assumption. }
  destruct (Hsync false) as (wf & Hgf & Hlf).
  destruct (Hsync true) as (wt & Hgt & Hlt).
  cbn in Hlt.
  assert (Hstuck : forall (m : M unit) lines,
             m w = (Ok tt, flushed (addLines lines wt)) -> ~ passes m w).
  { intros m lines Hm Hp.
    destruct (collector_log _ _ _ _ _ _ Hgt) as (_ & Hrep & _).
    apply (passes_flushed m w _ Hm Hrep) in Hp.
    unfold addLines in Hp. wsimpl. rewrite Hlt in Hp. discriminate. }
  split; [| split; [| split]].
  - apply (verdict_quiet Quote _ _ _ _ _ _ Hlog Hgf (ShouldReceiveNothing_run Quote _ _ _ _ Hgf)).
    reflexivity.
  - intros s. exact (Hstuck _ _ (ShouldReceiveOnly_run Quote s _ _ _ _ Hgt)).
  - intros l. exact (Hstuck _ _ (ShouldReceiveAll_run Quote l _ _ _ _ Hgt)).
  - intros l1 l2.
    exact (Hstuck _ _ (ShouldReceiveAllAndNotReceiveAny_run Quote l1 l2 _ _ _ _ Hgt)).
Qed.

(** When the body has sent at least one datagram, all of them in time and
    none empty, [ShouldReceiveOnly] passes for exactly the bytes sent (cut
    after 32768) and for no other string. *)
Theorem sent_bytes_pass_strictly (s : string) (body : fn) (w : World) :
  bindable w -> logBuf w = [] -> 0 < Timeout w ->
  sends body <> [] ->
  Forall (fun d => delay d <= elapsed body /\ data d <> []) (sends body) ->
  (passes (ShouldReceiveOnly Quote s body) w <->
   s = string_of_list_ascii
         (firstn (Z.to_nat 32768) (List.concat (map data (sends body))))).
Proof.
  intros (a & ra & Ha & Hres & Hbusy) Hlog Hto Hne Hall.
  destruct (getMessage_sync body true w a ra (sends body) [] Ha Hres Hbusy)
    as (w1 & Hget & Hemp & Hl); try assumption.
  - rewrite app_nil_r. reflexivity.
  - left. reflexivity.
  - intros _. exact Hto.
  - rewrite <- sentBytes_eq.
    pose proof (ShouldReceiveOnly_run Quote s _ _ _ _ Hget) as Hrun.
    destruct (collector_log _ _ _ _ _ _ Hget) as (_ & Hrep & _).
    rewrite (passes_flushed _ _ _ Hrun Hrep).
    unfold addLines. wsimpl. rewrite Hl, Hlog. cbn [app].
    assert (Hnz : collectorLines Quote true (Z.of_nat (String.length (sentBytes (sends body))))
                    (Some ("read udp " ++ ra ++ ": i/o timeout")) = []).
    { unfold collectorLines.
      destruct (sentBytes (sends body)) as [| c rest] eqn:Hs.
      - exfalso. apply Hne, Hemp. reflexivity.
      - replace (Z.of_nat (String.length (String c rest)) =? 0) with false
          by (symmetry; apply Z.eqb_neq; cbn [String.length]; lia).
        reflexivity. }
    rewrite Hnz. cbn [app]. unfold onlyLines.
    destruct (String.eqb_spec (sentBytes (sends body)) s); split; congruence.
Qed.

End Synchronous.

Section Pacing.

Variable Quote : string -> string.

(** ** The idle timeout *)

(** The datagrams a cycle reads from a queue when the clock stands at [t]
    and the timeout is [T]: each must arrive before the deadline set for
    its read, [T] after the later of [t] and the arrivals before it; the
    first empty one, or the first late one, ends the walk. *)
Fixpoint delivered (t T : Z) (q : list packet) : list packet :=
  match q with
  | [] => []
  | pk :: q' =>
      if T <=? 0 then []
      else if arrival pk <? t + T then
        match payload pk with
        | [] => []
        | _ => pk :: delivered (Z.max t (arrival pk)) T q'
        end
      else []
  end.

(** Whether that walk ends on a read that timed out rather than on an
    empty datagram. *)
Fixpoint endsIdle (t T : Z) (q : list packet) : bool :=
  match q with
  | [] => true
  | pk :: q' =>
      if T <=? 0 then true
      else if arrival pk <? t + T then
        match payload pk with
        | [] => false
        | _ => endsIdle (Z.max t (arrival pk)) T q'
        end
      else true
  end.

Lemma ReadFrom_arrives (p : list byte) (w : World) (c : UDPConn) (d : Z)
    (pk : packet) (rest : list packet) :
  listener w = Some c -> closed c = false -> deadline c = Some d ->
  queue c = pk :: rest -> now w < d -> arrival pk < d ->
  ReadFrom p w =
    (Ok (Z.min (Z.of_nat (List.length (payload pk))) (Z.of_nat (List.length p)), None,
         copyInto p (payload pk)),
     set_trace
       (trace w ++
        [EvRead (Z.of_nat (List.length p))
           (Z.min (Z.of_nat (List.length (payload pk))) (Z.of_nat (List.length p))) None])%list
       (set_now (Z.max (now w) (arrival pk))
          (set_listener
             (Some {| laddr := laddr c; deadline := deadline c;
                      closed := closed c; queue := rest |}) w))).
Proof.
  intros Hl Hc Hd Hq Hnow Harr. unfold ReadFrom. rewrite Hl, Hc, Hd, Hq.
  replace (d <=? now w) with false by (symmetry; apply Z.leb_gt; lia).
  replace (arrival pk <? d) with true by (symmetry; apply Z.ltb_lt; lia).
  reflexivity.
Qed.

Lemma ReadFrom_gives_up (p : list byte) (w : World) (c : UDPConn) (d : Z) :
  listener w = Some c -> closed c = false -> deadline c = Some d ->
  (queue c = [] \/ d <= now w \/ exists pk rest, queue c = pk :: rest /\ d <= arrival pk) ->
  exists t,
    ReadFrom p w =
      (Ok (0, Some (timeoutError c), p),
       set_trace (trace w ++ [EvRead (Z.of_nat (List.length p)) 0 (Some (timeoutError c))])%list
         (set_now t w)).
Proof.
  intros Hl Hc Hd Hcase. unfold ReadFrom. rewrite Hl, Hc, Hd.
  destruct (queue c) as [| pk rest] eqn:Hq; [eexists; reflexivity |].
  destruct (d <=? now w) eqn:Hexp; [eexists; reflexivity |].
  destruct (arrival pk <? d) eqn:Harr; [| eexists; reflexivity].
  apply Z.leb_gt in Hexp. apply Z.ltb_lt in Harr.
  destruct Hcase as [H | [H | (pk' & rest' & H & Hlate)]];
    [discriminate | lia | injection H as <- <-; lia].
Qed.

Lemma readLoop_delivered (expectData : bool) (q : list packet) :
  forall (fuel : nat) (message : list byte) (bufLen : Z) (w : World) (c : UDPConn),
    listener w = Some c -> closed c = false -> queue c = q ->
    Z.of_nat (List.length message) = bufSize ->
    0 <= bufLen <= bufSize ->
    (Z.to_nat (bufSize - bufLen) < fuel)%nat ->
    exists message' bufLen' w',
      readLoop Quote fuel expectData message bufLen w = (Ok (message', bufLen'), w') /\
      firstn (Z.to_nat bufLen') message' =
        (firstn (Z.to_nat bufLen) message ++
         firstn (Z.to_nat (bufSize - bufLen))
           (payloads (delivered (now w) (Timeout w) q)))%list /\
      (bufLen' = 0 -> delivered (now w) (Timeout w) q = []) /\
      logBuf w' =
        (logBuf w ++
         if endsIdle (now w) (Timeout w) q
         then collectorLines Quote expectData bufLen' (Some (timeoutError c))
         else [])%list.
Proof.
  induction q as [| pk q IH];
    intros fuel message bufLen w c Hl Hc Hq Hlen Hb Hfuel;
    (destruct fuel as [| fuel]; [lia |]);
    cbn [readLoop];
    unfold Now, SetReadDeadline, gets, modify, bind at 1 2 3;
    rewrite Hl, Hc;
    replace ((bufLen <? 0) || (bufLen >? Z.of_nat (List.length message))) with false
      by (symmetry; apply orb_false_iff; split; lia);
    set (p := skipn (Z.to_nat bufLen) message);
    assert (Hp : Z.of_nat (List.length p) = bufSize - bufLen)
      by (unfold p; rewrite length_skipn; lia);
    set (c1 := {| laddr := laddr c; deadline := Some (now w + Timeout w);
                  closed := false; queue := queue c |});
    set (w1 := set_listener (Some c1) w);
    assert (Hgive : forall t,
      ReadFrom p w1 =
        (Ok (0, Some (timeoutError c1), p),
         set_trace
           (trace w1 ++ [EvRead (Z.of_nat (List.length p)) 0 (Some (timeoutError c1))])%list
           (set_now t w1)) ->
      exists message' bufLen' w',
        (x <- ReadFrom p;;
         (let '(n, err, p0) := x in
          if n =? 0
          then
            match err with
            | Some err0 =>
                if (bufLen =? 0) && expectData
                then errorF Quote "Error reading udp data: %v" [VError err0]
                else ret tt
            | None => ret tt
            end;; ret ((firstn (Z.to_nat bufLen) message ++ p0)%list, bufLen)
          else readLoop Quote fuel expectData (firstn (Z.to_nat bufLen) message ++ p0)
                 (bufLen + n))) w1 = (Ok (message', bufLen'), w') /\
        firstn (Z.to_nat bufLen') message' =
          (firstn (Z.to_nat bufLen) message ++
           firstn (Z.to_nat (bufSize - bufLen)) (payloads []))%list /\
        logBuf w' =
          (logBuf w ++ collectorLines Quote expectData bufLen' (Some (timeoutError c)))%list /\
        bufLen' = bufLen)
      by (intros t Hr; rewrite (bind_Ok _ _ _ _ _ Hr); cbn [Z.eqb];
          unfold p at 1; rewrite firstn_skipn;
          exists message, bufLen;
          unfold collectorLines, errorF, modify, bind, ret;
          change (timeoutError c1) with (timeoutError c);
          destruct ((bufLen =? 0) && expectData); eexists;
          (split; [reflexivity |]); subst w1; wsimpl;
          unfold payloads; cbn [map List.concat]; rewrite firstn_nil, ?app_nil_r;
          repeat split; reflexivity).
  - (* nothing is queued *)
    destruct (ReadFrom_gives_up p w1 c1 (now w + Timeout w) eq_refl eq_refl eq_refl
                (or_introl Hq)) as [t Hr].
    destruct (Hgive t Hr) as (message' & bufLen' & w' & Hrun & Hcont & Hlog & _).
    exists message', bufLen', w'. cbn [delivered endsIdle].
    repeat split; assumption.
  - cbn [delivered endsIdle].
    destruct (Timeout w <=? 0) eqn:HT.
    { (* the deadline has passed when it is set *)
      apply Z.leb_le in HT.
      destruct (ReadFrom_gives_up p w1 c1 (now w + Timeout w) eq_refl eq_refl eq_refl)
        as [t Hr]; [right; left; subst w1; wsimpl; lia |].
      destruct (Hgive t Hr) as (message' & bufLen' & w' & Hrun & Hcont & Hlog & _).
      exists message', bufLen', w'. repeat split; assumption. }
    apply Z.leb_gt in HT.
    destruct (arrival pk <? now w + Timeout w) eqn:Harr.
    2: { (* the next datagram comes too late *)
      apply Z.ltb_ge in Harr.
      destruct (ReadFrom_gives_up p w1 c1 (now w + Timeout w) eq_refl eq_refl eq_refl)
        as [t Hr]; [right; right; exists pk, q; split; [exact Hq | exact Harr] |].
      destruct (Hgive t Hr) as (message' & bufLen' & w' & Hrun & Hcont & Hlog & _).
      exists message', bufLen', w'. repeat split; assumption. }
    apply Z.ltb_lt in Harr.
    rewrite (bind_Ok _ _ _ _ _
               (ReadFrom_arrives p w1 c1 (now w + Timeout w) pk q eq_refl eq_refl eq_refl
                  Hq ltac:(subst w1; wsimpl; lia) Harr)).
    set (n := Z.min (Z.of_nat (List.length (payload pk))) (Z.of_nat (List.length p))).
    set (message1 := (firstn (Z.to_nat bufLen) message ++ copyInto p (payload pk))%list).
    set (c2 := {| laddr := laddr c1; deadline := deadline c1;
                  closed := closed c1; queue := q |}).
    set (w2 := set_trace _ _).
    destruct (buffer_step message (payload pk) (Z.to_nat bufLen) ltac:(lia))
      as [Hlen1 Hpre]. fold p in Hlen1, Hpre. fold message1 in Hlen1, Hpre.
    assert (Hn : Z.to_nat n =
                 Nat.min (List.length (payload pk)) (List.length p)) by (unfold n; lia).
    rewrite <- Hn in Hpre.
    destruct (n =? 0) eqn:Hz.
    + (* an empty datagram, or no room left *)
      apply Z.eqb_eq in Hz.
      exists message1, bufLen, w2. split; [reflexivity |].
      subst w2 w1; wsimpl.
      rewrite Hz in Hpre.
      replace (Z.to_nat bufLen + Z.to_nat 0)%nat with (Z.to_nat bufLen) in Hpre by lia.
      rewrite Hpre.
      destruct (payload pk) as [| b bs] eqn:Hpay.
      * rewrite firstn_nil. unfold payloads. cbn [map List.concat].
        rewrite firstn_nil, !app_nil_r. repeat split; reflexivity.
      * assert (Hfull : bufLen = bufSize) by (unfold n in Hz; cbn [List.length] in Hz; lia).
        replace (List.length p) with 0%nat by lia.
        replace (Z.to_nat (bufSize - bufLen)) with 0%nat by lia.
        rewrite !firstn_0. split; [reflexivity |]. split.
        -- intros H0. pose proof bufSize_eq. lia.
        -- unfold collectorLines.
           replace (bufLen =? 0) with false
             by (symmetry; apply Z.eqb_neq; pose proof bufSize_eq; lia).
           cbn [andb]. destruct (endsIdle _ _ _); rewrite app_nil_r; reflexivity.
    + apply Z.eqb_neq in Hz.
      assert (Hnpos : 0 < n <= bufSize - bufLen) by (unfold n in *; lia).
      destruct (payload pk) as [| b bs] eqn:Hpay;
        [unfold n in Hnpos; cbn [List.length] in Hnpos; lia |].
      destruct (IH fuel message1 (bufLen + n) w2 c2) as
        (message' & bufLen' & w' & Hrun & Hcont & Hzero & Hlog);
        try reflexivity; try lia.
      exists message', bufLen', w'. split; [exact Hrun |].
      subst w2 w1; wsimpl. split; [| split].
      * rewrite Hcont.
        replace (Z.to_nat (bufLen + n)) with (Z.to_nat bufLen + Z.to_nat n)%nat by lia.
        rewrite Hpre, <- app_assoc. f_equal.
        unfold payloads; cbn [map List.concat]. rewrite Hpay.
        replace (Z.to_nat (bufSize - (bufLen + n)))
          with (Z.to_nat (bufSize - bufLen) - Z.to_nat n)%nat by lia.
        replace (List.length p) with (Z.to_nat (bufSize - bufLen)) by lia.
        apply firstn_stream. lia.
      * intros H0.
        assert (Hle : bufLen + n <= bufLen').
        { apply (f_equal (@List.length byte)) in Hcont.
          rewrite length_app, !length_firstn in Hcont. lia. }
        lia.
      * exact Hlog.
Qed.

(** The capture of any body, from the arrival times of its datagrams. *)
Lemma getMessage_delivered (body : fn) (expectData : bool) (w : World) (a ra : string) :
  addr w = Some a -> resolve w a = inl ra ->
  existsb (String.eqb ra) (busy w) = false ->
  exists w1,
    getMessage Quote body expectData w =
      (Ok (string_of_list_ascii
             (firstn (Z.to_nat bufSize)
                (payloads (delivered (now w + elapsed body) (Timeout w)
                             (stamped (now w) body))))), w1) /\
    logBuf w1 =
      (logBuf w ++
       if endsIdle (now w + elapsed body) (Timeout w) (stamped (now w) body)
       then collectorLines Quote expectData
              (Z.of_nat (String.length
                 (string_of_list_ascii
                    (firstn (Z.to_nat bufSize)
                       (payloads (delivered (now w + elapsed body) (Timeout w)
                                    (stamped (now w) body)))))))
              (Some ("read udp " ++ ra ++ ": i/o timeout")%string)
       else [])%list.
Proof.
  intros Ha Hres Hbusy.
  unfold getMessage.
  pose proof (start_cases w) as Hs. rewrite Ha, Hres, Hbusy in Hs.
  rewrite (bind_Ok _ _ _ _ _ Hs).
  set (c0 := {| laddr := ra; deadline := None; closed := false;
                queue := stamped (now w) body |}).
  set (w2 := set_trace (trace (started ra w) ++ [EvBody])%list
               (set_now (now w + elapsed body) (set_listener (Some c0) (started ra w)))).
  assert (Hcall : call body (started ra w) = (Ok tt, w2)) by reflexivity.
  assert (Hrep : Z.of_nat (List.length (repeat Ascii.zero (Z.to_nat bufSize))) = bufSize)
    by (rewrite repeat_length; rewrite bufSize_eq; reflexivity).
  destruct (readLoop_spec Quote (S (Z.to_nat bufSize)) expectData
              (repeat Ascii.zero (Z.to_nat bufSize)) 0 w2 c0)
    as (message' & bufLen' & w3 & c3 & evs & err & taken &
        Hrun & Hbd & Hlen' & _ & _ & Hl3 & Hc3 & _);
    try reflexivity; try assumption; try (rewrite bufSize_eq; lia).
  destruct (readLoop_delivered expectData (stamped (now w) body)
              (S (Z.to_nat bufSize)) (repeat Ascii.zero (Z.to_nat bufSize)) 0 w2 c0)
    as (message2 & bufLen2 & w4 & Hrun2 & Hcont & _ & Hlog);
    try reflexivity; try assumption; try (rewrite bufSize_eq; lia).
  rewrite Hrun in Hrun2. injection Hrun2 as <- <- <-.
  replace (bufSize - 0) with bufSize in Hcont by lia.
  change (Z.to_nat 0) with 0%nat in Hcont. rewrite firstn_0 in Hcont. cbn [app] in Hcont.
  change (now w2) with (now w + elapsed body) in Hcont, Hlog.
  change (Timeout w2) with (Timeout w) in Hcont, Hlog.
  set (capture := string_of_list_ascii
                    (firstn (Z.to_nat bufSize)
                       (payloads (delivered (now w + elapsed body) (Timeout w)
                                    (stamped (now w) body))))).
  assert (Hmsg : string_of_list_ascii (firstn (Z.to_nat bufLen') message') = capture)
    by (unfold capture; rewrite Hcont; reflexivity).
  assert (Hlenmsg : Z.of_nat (String.length capture) = bufLen').
  { rewrite <- Hmsg, string_of_list_ascii_length, length_firstn. lia. }
  match goal with
  | |- context [defer stop ?inner] =>
      assert (Hinner : inner (started ra w) = (Ok capture, w3))
  end.
  { rewrite (bind_Ok _ _ _ _ _ Hcall), (bind_Ok _ _ _ _ _ Hrun).
    cbv beta iota.
    replace ((bufLen' <? 0) || (bufLen' >? Z.of_nat (List.length message'))) with false
      by (symmetry; apply orb_false_iff; split; lia).
    unfold ret. rewrite Hmsg. reflexivity. }
  rewrite (defer_Ok _ _ _ _ _ _ _ Hinner (stop_open w3 c3 Hl3 Hc3)).
  eexists. split; [reflexivity |].
  unfold stopped. wsimpl. rewrite Hlog, Hlenmsg. reflexivity.
Qed.

(** Datagrams that keep the pace: each holds data and arrives less than [T]
    after the later of [t] and the arrivals before it. *)
Fixpoint Paced (t T : Z) (q : list packet) : Prop :=
  match q with
  | [] => True
  | pk :: q' =>
      arrival pk < t + T /\ payload pk <> [] /\ Paced (Z.max t (arrival pk)) T q'
  end.

Lemma delivered_Paced (T : Z) (q : list packet) :
  0 < T -> forall t, Paced t T q -> delivered t T q = q.
Proof.
  intros HT. induction q as [| pk q IH]; intros t Hp; [reflexivity |].
  destruct Hp as (Harr & Hdata & Hrest). cbn [delivered].
  replace (T <=? 0) with false by (symmetry; apply Z.leb_gt; lia).
  replace (arrival pk <? t + T) with true by (symmetry; apply Z.ltb_lt; lia).
  destruct (payload pk); [congruence |]. rewrite (IH _ Hrest). reflexivity.
Qed.

Lemma delivered_in_time (t T : Z) (q1 rest : list packet) :
  0 < T ->
  Forall (fun pk => arrival pk <= t /\ payload pk <> []) q1 ->
  delivered t T (q1 ++ rest) = (q1 ++ delivered t T rest)%list.
Proof.
  intros HT. induction 1 as [| pk q1 [Harr Hdata] _ IH]; [reflexivity |].
  cbn [app delivered].
  replace (T <=? 0) with false by (symmetry; apply Z.leb_gt; lia).
  replace (arrival pk <? t + T) with true by (symmetry; apply Z.ltb_lt; lia).
  destruct (payload pk); [congruence |].
  replace (Z.max t (arrival pk)) with t by lia. rewrite IH. reflexivity.
Qed.

(** The timeout bounds the gap between datagrams, not the length of the
    cycle: when each datagram holds data and arrives less than [Timeout]
    after the later of the body's return and the datagrams before it, the
    capture is all their bytes in order (cut after 32768), however long the
    whole takes. *)
Theorem paced_sender_is_captured (body : fn) (expectData : bool) (w : World) :
  bindable w -> 0 < Timeout w ->
  Paced (now w + elapsed body) (Timeout w) (stamped (now w) body) ->
  result (getMessage Quote body expectData) w =
    Ok (string_of_list_ascii
          (firstn (Z.to_nat 32768) (List.concat (map data (sends body))))).
Proof.
  intros (a & ra & Ha & Hres & Hbusy) HT Hp.
  destruct (getMessage_delivered body expectData w a ra Ha Hres Hbusy) as (w1 & Hget & _).
  unfold result. rewrite Hget. cbn [fst].
  rewrite (delivered_Paced _ _ HT _ Hp), bufSize_eq.
  unfold stamped. rewrite payloads_stamped. reflexivity.
Qed.

(** A datagram that arrives [Timeout] or more after the body has returned,
    with nothing read in between, is not captured, nor is anything sent
    after it: the capture holds only what was sent in time before it. *)
Theorem late_datagram_is_missed (body : fn) (expectData : bool) (w : World)
    (before after : list datagram) (d : datagram) :
  bindable w -> 0 < Timeout w ->
  sends body = (before ++ d :: after)%list ->
  Forall (fun d => delay d <= elapsed body /\ data d <> []) before ->
  elapsed body + Timeout w <= delay d ->
  result (getMessage Quote body expectData) w =
    Ok (string_of_list_ascii
          (firstn (Z.to_nat 32768) (List.concat (map data before)))).
Proof.
  intros (a & ra & Ha & Hres & Hbusy) HT Hsends Hall Hlate.
  destruct (getMessage_delivered body expectData w a ra Ha Hres Hbusy) as (w1 & Hget & _).
  unfold result. rewrite Hget. cbn [fst].
  unfold stamped. rewrite Hsends, map_app.
  rewrite delivered_in_time; [| exact HT |].
  - cbn [map delivered arrival].
    replace (Timeout w <=? 0) with false by (symmetry; apply Z.leb_gt; lia).
    replace (now w + delay d <? now w + elapsed body + Timeout w) with false
      by (symmetry; apply Z.ltb_ge; lia).
    rewrite app_nil_r, payloads_stamped, bufSize_eq. reflexivity.
  - apply Forall_map. eapply Forall_impl; [| exact Hall].
    intros d0 [Hd Hdata]. cbn. split; [lia | exact Hdata].
Qed.

(** With a timeout of zero or less every read fails at once: the capture
    is empty whatever the body sends. *)
Theorem nonpositive_timeout_captures_nothing (body : fn) (expectData : bool) (w : World) :
  bindable w -> Timeout w <= 0 ->
  result (getMessage Quote body expectData) w = Ok "".
Proof.
  intros (a & ra & Ha & Hres & Hbusy) HT.
  destruct (getMessage_delivered body expectData w a ra Ha Hres Hbusy) as (w1 & Hget & _).
  unfold result. rewrite Hget. cbn [fst].
  assert (Hnone : forall t q, delivered t (Timeout w) q = []).
  { intros t q. destruct q as [| pk q]; [reflexivity |]. cbn [delivered].
    replace (Timeout w <=? 0) with true by (symmetry; apply Z.leb_le; lia). reflexivity. }
  rewrite Hnone. unfold payloads. cbn [map List.concat]. rewrite firstn_nil. reflexivity.
Qed.

End Pacing.

Section Configuring.

Variable Quote : string -> string.

(** ** [get] and [SetAddr] *)

(** What [get] returns beside the capture: [equals] tells whether the
    capture is the given string, [contains] whether the string occurs in
    it; [equals] implies [contains], and the empty string is contained in
    every capture. *)
Theorem get_compares_the_capture (match_ : string) (body : fn) (expectData : bool)
    (w w1 : World) (got : string) (equals contains : bool) :
  get Quote match_ body expectData w = (Ok (got, equals, contains), w1) ->
  getMessage Quote body expectData w = (Ok got, w1) /\
  (equals = true <-> got = match_) /\
  (contains = true <-> Substring match_ got) /\
  (equals = true -> contains = true) /\
  (match_ = "" -> contains = true).
Proof.
  unfold get, bind, ret.
  destruct (getMessage Quote body expectData w) as [[g | | msg |] w0]; try discriminate.
  intros H. injection H as <- <- <- <-.
  split; [reflexivity |]. split; [apply String.eqb_eq |].
  split; [apply Contains_spec |]. split.
  - intros He. apply String.eqb_eq in He. subst match_.
    apply Contains_spec, Substring_refl.
  - intros ->. apply Contains_spec. exists "", g. reflexivity.
Qed.

(** The address set last is the one a cycle listens on: after two calls of
    [SetAddr] a cycle that returns has resolved the second address and
    opened its socket there. *)
Theorem last_address_wins (a b : string) (body : fn) (expectData : bool) (w : World)
    (msg : string) :
  result (SetAddr a ;; SetAddr b ;; getMessage Quote body expectData) w = Ok msg ->
  exists rb rest,
    resolve w b = inl rb /\
    trace (run (SetAddr a ;; SetAddr b ;; getMessage Quote body expectData) w) =
      (trace w ++ EvListen rb :: rest)%list.
Proof.
  intros H.
  change (result (getMessage Quote body expectData)
            (set_addr (Some b) (set_addr (Some a) w)) = Ok msg) in H.
  change (run (SetAddr a ;; SetAddr b ;; getMessage Quote body expectData) w)
    with (run (getMessage Quote body expectData) (set_addr (Some b) (set_addr (Some a) w))).
  pose proof (getMessage_cases Quote body expectData
                (set_addr (Some b) (set_addr (Some a) w))) as Hc.
  rewrite H in Hc.
  destruct Hc as (a0 & ra & evs & err & taken & c' & Ha & Hres & _ & Htr & _).
  wsimpl. injection Ha as <-.
  exists ra. eexists. split; [exact Hres |]. rewrite Htr. reflexivity.
Qed.

End Configuring.

(** ** Runs in the test world *)

Lemma tw_bindable : bindable tw.
Proof. exists ":8126", ":8126". repeat split. Qed.

Lemma ShouldNotReceiveOnly_passes_iff_witness :
  logBuf tw = [] /\
  getMessage QuoteASCII (writes ["foo"]) false tw = (Ok "foo", captured (writes ["foo"]) false) /\
  passes (ShouldNotReceiveOnly QuoteASCII "bar" (writes ["foo"])) tw.
Proof.
  split; [reflexivity |]. split; [vm_compute; reflexivity |].
  apply (ShouldNotReceiveOnly_passes_iff QuoteASCII "bar" (writes ["foo"]) tw
           (captured (writes ["foo"]) false) "foo");
    [reflexivity | vm_compute; reflexivity | discriminate].
Defined.

Lemma ShouldNotReceive_passes_iff_witness :
  logBuf tw = [] /\
  getMessage QuoteASCII (writes ["fooba"]) false tw =
    (Ok "fooba", captured (writes ["fooba"]) false) /\
  passes (ShouldNotReceive QuoteASCII "bar" (writes ["fooba"])) tw.
Proof.
  split; [reflexivity |]. split; [vm_compute; reflexivity |].
  apply (ShouldNotReceive_passes_iff QuoteASCII "bar" (writes ["fooba"]) tw
           (captured (writes ["fooba"]) false) "fooba");
    [reflexivity | vm_compute; reflexivity |].
  apply Contains_false_spec. vm_compute. reflexivity.
Defined.

Lemma ShouldReceiveNothing_passes_iff_witness :
  logBuf tw = [] /\
  getMessage QuoteASCII (writes []) false tw = (Ok "", captured (writes []) false) /\
  passes (ShouldReceiveNothing QuoteASCII (writes [])) tw.
Proof.
  split; [reflexivity |]. split; [vm_compute; reflexivity |].
  apply (ShouldReceiveNothing_passes_iff QuoteASCII (writes []) tw
           (captured (writes []) false) "");
    [reflexivity | vm_compute; reflexivity | reflexivity].
Defined.

Lemma ShouldNotReceiveAny_passes_iff_witness :
  logBuf tw = [] /\
  getMessage QuoteASCII (writes ["foobizbar"]) false tw =
    (Ok "foobizbar", captured (writes ["foobizbar"]) false) /\
  passes (ShouldNotReceiveAny QuoteASCII ["fooby"; "bars"] (writes ["foobizbar"])) tw.
Proof.
  split; [reflexivity |]. split; [vm_compute; reflexivity |].
  apply (ShouldNotReceiveAny_passes_iff QuoteASCII ["fooby"; "bars"] (writes ["foobizbar"]) tw
           (captured (writes ["foobizbar"]) false) "foobizbar");
    [reflexivity | vm_compute; reflexivity |].
  intros str [<- | [<- | []]]; apply Contains_false_spec; vm_compute; reflexivity.
Defined.

(** A resolver that knows no address, and a world where the port is taken. *)
Definition lost : World :=
  {| addr := Some "nowhere"; listener := None; logBuf := []; Timeout := Millisecond;
     now := 0; busy := []; resolve := fun a => inr ("address " ++ a ++ ": missing port in address");
     caller := ("udp_test.go", 56); trace := []; reports := [] |}.

Definition taken : World := set_busy [":8126"] tw.

Lemma unresolved_address_is_fatal_witness :
  addr lost = Some "nowhere" /\
  resolve lost "nowhere" = inr "address nowhere: missing port in address" /\
  reports (run (getMessage QuoteASCII (writes ["foo"]) true) lost) =
    [Fatal [VError "address nowhere: missing port in address"]].
Proof.
  split; [reflexivity |]. split; [reflexivity |].
  apply (unresolved_address_is_fatal QuoteASCII (writes ["foo"]) true lost "nowhere"
           "address nowhere: missing port in address"); reflexivity.
Defined.

Lemma busy_address_is_fatal_witness :
  addr taken = Some ":8126" /\ resolve taken ":8126" = inl ":8126" /\
  In ":8126" (busy taken) /\
  result (getMessage QuoteASCII (writes ["foo"]) true) taken = Goexit.
Proof.
  split; [reflexivity |]. split; [reflexivity |]. split; [left; reflexivity |].
  apply (busy_address_is_fatal QuoteASCII (writes ["foo"]) true taken ":8126" ":8126");
    [reflexivity | reflexivity | left; reflexivity].
Defined.

Lemma unset_address_panics_witness :
  addr boot = None /\ run (getMessage QuoteASCII (writes ["foo"]) true) boot = boot.
Proof.
  split; [reflexivity |].
  apply (unset_address_panics QuoteASCII (writes ["foo"]) true boot). reflexivity.
Defined.

Lemma getMessage_returns_iff_bindable_witness :
  bindable tw /\ exists msg, result (getMessage QuoteASCII (writes ["foo"]) true) tw = Ok msg.
Proof.
  split; [exact tw_bindable |].
  apply (getMessage_returns_iff_bindable QuoteASCII (writes ["foo"]) true tw).
  exact tw_bindable.
Defined.

Lemma cycles_follow_one_another_witness :
  getMessage QuoteASCII (writes ["foo"]) true tw = (Ok "foo", captured (writes ["foo"]) true) /\
  exists msg2,
    result (getMessage QuoteASCII (writes ["bar"]) false) (captured (writes ["foo"]) true) =
      Ok msg2.
Proof.
  split; [vm_compute; reflexivity |].
  apply (cycles_follow_one_another QuoteASCII (writes ["foo"]) (writes ["bar"]) true false tw
           (captured (writes ["foo"]) true) "foo").
  vm_compute. reflexivity.
Defined.

Lemma assertion_reports_once_witness :
  In (false, ShouldReceive QuoteASCII "foo" (writes ["bar"]))
    (assertions QuoteASCII "foo" [] [] (writes ["bar"])) /\
  logBuf (run (ShouldReceive QuoteASCII "foo" (writes ["bar"])) tw) = [].
Proof.
  assert (Hin : In (false, ShouldReceive QuoteASCII "foo" (writes ["bar"]))
                  (assertions QuoteASCII "foo" [] [] (writes ["bar"])))
    by (right; right; left; reflexivity).
  split; [exact Hin |].
  destruct (assertion_reports_once QuoteASCII "foo" [] [] (writes ["bar"]) false
              (ShouldReceive QuoteASCII "foo" (writes ["bar"])) tw Hin)
    as (fatal & lines & _ & _ & Hlog).
  exact Hlog.
Defined.

Lemma assertion_runs_one_cycle_witness :
  In (true, ShouldReceiveOnly QuoteASCII "foo" (writes ["foo"]))
    (assertions QuoteASCII "foo" [] [] (writes ["foo"])) /\
  trace (run (ShouldReceiveOnly QuoteASCII "foo" (writes ["foo"])) tw) =
    trace (run (getMessage QuoteASCII (writes ["foo"]) true) tw).
Proof.
  assert (Hin : In (true, ShouldReceiveOnly QuoteASCII "foo" (writes ["foo"]))
                  (assertions QuoteASCII "foo" [] [] (writes ["foo"])))
    by (left; reflexivity).
  split; [exact Hin |].
  apply (assertion_runs_one_cycle QuoteASCII "foo" [] [] (writes ["foo"]) true
           (ShouldReceiveOnly QuoteASCII "foo" (writes ["foo"])) tw Hin).
Defined.

Lemma ShouldReceive_or_ShouldNotReceive_witness :
  logBuf tw = [] /\
  getMessage QuoteASCII (writes ["foo"]) false tw = (Ok "foo", captured (writes ["foo"]) false) /\
  (passes (ShouldReceive QuoteASCII "bar" (writes ["foo"])) tw \/
   passes (ShouldNotReceive QuoteASCII "bar" (writes ["foo"])) tw).
Proof.
  split; [reflexivity |]. split; [vm_compute; reflexivity |].
  apply (ShouldReceive_or_ShouldNotReceive QuoteASCII "bar" (writes ["foo"]) tw
           (captured (writes ["foo"]) false) "foo");
    [reflexivity | vm_compute; reflexivity].
Defined.

Lemma ShouldReceiveOnly_implies_ShouldReceive_witness :
  logBuf tw = [] /\
  passes (ShouldReceiveOnly QuoteASCII "foo" (writes ["foo"])) tw /\
  passes (ShouldReceive QuoteASCII "foo" (writes ["foo"])) tw.
Proof.
  assert (Hp : passes (ShouldReceiveOnly QuoteASCII "foo" (writes ["foo"])) tw)
    by (split; vm_compute; reflexivity).
  split; [reflexivity |]. split; [exact Hp |].
  apply (ShouldReceiveOnly_implies_ShouldReceive QuoteASCII "foo" (writes ["foo"]) tw);
    [reflexivity | exact Hp].
Defined.

Lemma writes_in_time (l : list string) :
  Forall (fun s => s <> "") l ->
  Forall (fun d => delay d <= elapsed (writes l) /\ data d <> []) (sends (writes l)).
Proof.
  intros H. cbn [writes sends elapsed]. apply Forall_map.
  eapply Forall_impl; [| exact H]. intros s Hs. cbn. split; [lia |].
  destruct s; [congruence | discriminate].
Qed.

Lemma synchronous_body_is_captured_witness :
  bindable tw /\ 0 < Timeout tw /\
  result (getMessage QuoteASCII (writes ["foo"; "biz"; "bar"]) true) tw = Ok "foobizbar".
Proof.
  split; [exact tw_bindable |]. split; [reflexivity |].
  apply (synchronous_body_is_captured QuoteASCII (writes ["foo"; "biz"; "bar"]) true tw
           tw_bindable eq_refl).
  - apply writes_in_time. repeat constructor; discriminate.
  - vm_compute. discriminate.
Defined.

Lemma empty_datagram_ends_capture_witness :
  bindable tw /\ 0 < Timeout tw /\
  result (getMessage QuoteASCII (writes ["foo"; ""; "bar"]) true) tw = Ok "foo".
Proof.
  split; [exact tw_bindable |]. split; [reflexivity |].
  apply (empty_datagram_ends_capture QuoteASCII (writes ["foo"; ""; "bar"]) true tw
           (sends (writes ["foo"])) (sends (writes ["bar"])) {| delay := 0; data := [] |}
           tw_bindable eq_refl eq_refl).
  - repeat constructor; [cbn; lia | discriminate].
  - cbn. lia.
  - reflexivity.
Defined.

Lemma silent_body_verdicts_witness :
  bindable tw /\ logBuf tw = [] /\ sends (writes []) = [] /\
  passes (ShouldReceiveNothing QuoteASCII (writes [])) tw.
Proof.
  split; [exact tw_bindable |]. split; [reflexivity |]. split; [reflexivity |].
  apply (silent_body_verdicts QuoteASCII (writes []) tw tw_bindable eq_refl eq_refl).
Defined.

Lemma sent_bytes_pass_strictly_witness :
  bindable tw /\ logBuf tw = [] /\ 0 < Timeout tw /\
  passes (ShouldReceiveOnly QuoteASCII "foobar" (writes ["foo"; "bar"])) tw.
Proof.
  split; [exact tw_bindable |]. split; [reflexivity |]. split; [reflexivity |].
  apply (sent_bytes_pass_strictly QuoteASCII "foobar" (writes ["foo"; "bar"]) tw
           tw_bindable eq_refl eq_refl).
  - discriminate.
  - apply writes_in_time. repeat constructor; discriminate.
  - reflexivity.
Defined.

(** A sender that goes on after the body has returned: one datagram every
    0.6 ms against a timeout of 1 ms. *)
Definition trickle : fn :=
  {| sends := [ {| delay := 600000; data := bytes "foo" |};
                {| delay := 1200000; data := bytes "biz" |};
                {| delay := 1800000; data := bytes "bar" |} ];
     elapsed := 0 |}.

Lemma paced_sender_is_captured_witness :
  bindable tw /\ 0 < Timeout tw /\
  result (getMessage QuoteASCII trickle true) tw = Ok "foobizbar".
Proof.
  split; [exact tw_bindable |]. split; [reflexivity |].
  apply (paced_sender_is_captured QuoteASCII trickle true tw tw_bindable eq_refl).
  cbn. repeat split; try lia; discriminate.
Defined.

Definition straggler : fn :=
  {| sends := [ {| delay := 0; data := bytes "foo" |};
                {| delay := 5000000; data := bytes "bar" |} ];
     elapsed := 0 |}.

Lemma late_datagram_is_missed_witness :
  bindable tw /\ 0 < Timeout tw /\
  result (getMessage QuoteASCII straggler true) tw = Ok "foo".
Proof.
  split; [exact tw_bindable |]. split; [reflexivity |].
  apply (late_datagram_is_missed QuoteASCII straggler true tw
           [ {| delay := 0; data := bytes "foo" |} ] []
           {| delay := 5000000; data := bytes "bar" |} tw_bindable eq_refl eq_refl).
  - repeat constructor; [cbn; lia | discriminate].
  - vm_compute. discriminate.
Defined.

Lemma nonpositive_timeout_captures_nothing_witness :
  bindable (run (SetTimeout 0) tw) /\ Timeout (run (SetTimeout 0) tw) <= 0 /\
  result (getMessage QuoteASCII (writes ["foo"]) true) (run (SetTimeout 0) tw) = Ok "".
Proof.
  assert (Hb : bindable (run (SetTimeout 0) tw))
    by (exists ":8126", ":8126"; repeat split).
  split; [exact Hb |]. split; [cbn; lia |].
  apply (nonpositive_timeout_captures_nothing QuoteASCII (writes ["foo"]) true
           (run (SetTimeout 0) tw) Hb).
  cbn. lia.
Defined.

Lemma get_compares_the_capture_witness :
  get QuoteASCII "foo" (writes ["foobar"]) true tw =
    (Ok ("foobar", false, true), captured (writes ["foobar"]) true) /\
  (true = true <-> Substring "foo" "foobar").
Proof.
  split; [vm_compute; reflexivity |].
  apply (get_compares_the_capture QuoteASCII "foo" (writes ["foobar"]) true tw
           (captured (writes ["foobar"]) true) "foobar" false true).
  vm_compute. reflexivity.
Defined.

Lemma last_address_wins_witness :
  result (SetAddr ":9999" ;; SetAddr ":8126" ;; getMessage QuoteASCII (writes ["foo"]) true)
    boot = Ok "foo" /\
  exists rb rest,
    resolve boot ":8126" = inl rb /\
    trace (run (SetAddr ":9999" ;; SetAddr ":8126" ;;
                getMessage QuoteASCII (writes ["foo"]) true) boot) =
      (trace boot ++ EvListen rb :: rest)%list.
Proof.
  split; [vm_compute; reflexivity |].
  apply (last_address_wins QuoteASCII ":9999" ":8126" (writes ["foo"]) true boot "foo").
  vm_compute. reflexivity.
Defined.
